(** * cea-db_maker: the numeric core, embedded and verified

    Shallow embedding of the interpolation/extrapolation engine of
    [cea_post.py] (class [Read_datset]) and of the chamber-pressure solver of
    [design_EBHR.py] (class [Gen_excond_table] and the [func_*] correlations).

    Conventions of the embedding.
    - Python and numpy floats are idealised as exact rationals ([Q]): every
      arithmetic expression is the source's expression, without rounding.
      Division of numpy floats never raises, and neither does [Q]'s.
    - Python exceptions are values of [exn]; a computation that can raise
      lives in [result], and [x <- c ;; k] is statement sequencing.
    - The file system, [scipy.interpolate.interp2d], [scipy.optimize.newton]
      and [scipy.optimize.brentq] are not code of the repository: they are
      section variables, and every theorem holds for all of them; what a
      theorem needs of one of them is a hypothesis of its statement. *)

From Stdlib Require Import QArith Qround Qabs ZArith List String Bool Lia Lqa Sorted SetoidList.
Import ListNotations.
Open Scope Q_scope.

(** ** Python runtime *)

Inductive exn : Type :=
| IndexError
| ValueError
| TypeError
| AttributeError
| UnboundLocalError
| FileNotFoundError
| RuntimeError
| SystemExit (code : Z)
| FitpackError.   (* dfitpack.error, raised by scipy's FITPACK wrappers *)

Inductive result (A : Type) : Type :=
| Ok (a : A)
| Err (e : exn).
Arguments Ok {A} a.
Arguments Err {A} e.

Definition bind {A B : Type} (c : result A) (k : A -> result B) : result B :=
  match c with
  | Ok a => k a
  | Err e => Err e
  end.

Notation "x <- c ;; k" := (bind c (fun x => k))
  (at level 61, c at next level, right associativity).

(** [try: c  except: h] with a bare [except], which catches every exception. *)
Definition try_except {A : Type} (c : result A) (h : result A) : result A :=
  match c with
  | Ok a => Ok a
  | Err _ => h
  end.

(** What [func] can hand back: a number, or [None] (the value of the empty
    [cea_exe]). *)
Inductive pyval : Type :=
| PyNone
| PyFloat (q : Q).

(** The [extraporate] argument of [gen_func]: the sentinel [False] or a
    strategy name. *)
Inductive strategy : Type :=
| SFalse
| SName (name : string).

(** [extraporate == False] *)
Definition eq_False (s : strategy) : bool :=
  match s with SFalse => true | SName _ => false end.

(** [extraporate == "linear"] *)
Definition eq_str (s : strategy) (lit : string) : bool :=
  match s with SFalse => false | SName n => String.eqb n lit end.

Definition Qltb (x y : Q) : bool := negb (Qle_bool y x).

(** [os.path.join(a, b)] on a POSIX system: an absolute [b] replaces [a];
    otherwise [b] is appended, after a separator unless [a] is empty or ends
    with one. *)
Definition path_join (a b : string) : string :=
  if String.prefix "/" b then b
  else
    match a with
    | EmptyString => b
    | _ => if String.eqb (substring (String.length a - 1) 1 a) "/"
           then (a ++ b)%string else (a ++ "/" ++ b)%string
    end.

(** [s.replace(old, new)]: every non-overlapping occurrence, left to right.
    [skip] counts the characters of a match still to be dropped. *)
Fixpoint replace_from (old new : string) (skip : nat) (s : string) : string :=
  match s with
  | EmptyString => EmptyString
  | String c s' =>
      match skip with
      | S k => replace_from old new k s'
      | O =>
          if String.prefix old s
          then (new ++ replace_from old new (String.length old - 1) s')%string
          else String c (replace_from old new 0 s')
      end
  end.

Definition str_replace (s old new : string) : string :=
  match old with
  | EmptyString => s
  | _ => replace_from old new 0 s
  end.

(** ** numpy *)

Module Np.

(** [seq[i]] with Python's index rule: [-len <= i < len], negative
    indices count from the end, anything else is an [IndexError]. *)
Definition getitem {A : Type} (l : list A) (i : Z) : result A :=
  let n := Z.of_nat (List.length l) in
  let j := if (i <? 0)%Z then (n + i)%Z else i in
  if ((0 <=? j)%Z && (j <? n)%Z)%bool
  then match nth_error l (Z.to_nat j) with
       | Some x => Ok x
       | None => Err IndexError
       end
  else Err IndexError.

Definition len {A : Type} (l : list A) : Z := Z.of_nat (List.length l).

Definition minimum (x y : Q) : Q := if Qle_bool x y then x else y.
Definition maximum (x y : Q) : Q := if Qle_bool x y then y else x.

(** [a.min()], [a.max()]: a [ValueError] on an empty array. *)
Definition min (a : list Q) : result Q :=
  match a with
  | [] => Err ValueError
  | x :: r => Ok (fold_left minimum r x)
  end.

Definition max (a : list Q) : result Q :=
  match a with
  | [] => Err ValueError
  | x :: r => Ok (fold_left maximum r x)
  end.

(** [np.sort] *)
Fixpoint insert (x : Q) (l : list Q) : list Q :=
  match l with
  | [] => [x]
  | y :: r => if Qle_bool x y then x :: l else y :: insert x r
  end.

Definition sort (a : list Q) : list Q := fold_right insert [] a.

(** [a.T] of a two-dimensional array given as its rows. *)
Definition ncols (a : list (list Q)) : nat :=
  match a with
  | [] => O
  | r :: _ => List.length r
  end.

Definition T (a : list (list Q)) : list (list Q) :=
  map (fun j => map (fun r => nth j r 0) a) (seq 0 (ncols a)).

(** [np.pi], the double nearest to pi, as the rational it is. *)
Definition pi : Q := 884279719003555 # 281474976710656.

(** [np.power(x, n)]; the source only passes the exponents [2] and [1.0]. *)
Definition power (x : Q) (n : Z) : Q := Qpower x n.

End Np.

(** ** pandas *)

(** A table as [pd.read_csv(path, header=0, index_col=0)] parses it: row
    labels, column labels and the body. *)
Record csv_frame : Type := {
  frame_index : list Q;
  frame_columns : list Q;
  frame_values : list (list Q)
}.

(** The part of the operating system the loader talks to. *)
Record filesystem : Type := {
  path_exists : string -> bool;          (* os.path.exists *)
  read_csv : string -> result csv_frame; (* pd.read_csv *)
  glob : string -> list string           (* glob.glob(pattern, recursive=True) *)
}.

(** ** scipy.interpolate.interp2d *)

(** A fitted surface, [z = s x y]. *)
Definition surface : Type := Q -> Q -> Q.

(** [func_interp(x, y)] for a one-dimensional [x] and a scalar [y]:
    interp2d's [__call__] sorts [x] (assume_sorted=False) and returns the
    one-dimensional array of the surface's values along it. *)
Definition interp2d_call (s : surface) (x : list Q) (y : Q) : list Q :=
  map (fun xi => s xi y) (Np.sort x).

(** ** cea_post.py *)

Module CeaPost.

(** An instance of [Read_datset]. [of] and [Pc] are only set by
    [__init__] when the folder exists. *)
Record Read_datset : Type := {
  fld_path : string;
  fexten : string;
  of_ : option (list Q);   (* self.of; [of] is a reserved word here *)
  Pc : option (list Q)
}.

Definition attr {A : Type} (field : option A) : result A :=
  match field with
  | Some v => Ok v
  | None => Err AttributeError
  end.

(** [extrapfunc_linear], local to [func]. *)
Definition extrapfunc_linear (of_ a b diff : Q) : Q := diff * (of_ - a) + b.

(** [cea_exe], local to [func]: its body is [pass]. *)
Definition cea_exe (of_ Pc : Q) : pyval := PyNone.

(** The strategy dispatch shared by both out-of-range branches. A name
    that matches no [if]/[elif] leaves [val] unbound, and [return(val)]
    raises. *)
Definition dispatch (extraporate : strategy) (of_ Pc a b diff : Q) : result pyval :=
  if eq_False extraporate then Ok (cea_exe of_ Pc)
  else if eq_str extraporate "linear" then Ok (PyFloat (extrapfunc_linear of_ a b diff))
  else Err UnboundLocalError.

(** Body of [if of<self.of.min():] (lines 202-220); [Pc] is already in MPa. *)
Definition func_below (self_of cstr_array : list Q) (extraporate : strategy)
    (of_ Pc : Q) : result pyval :=
  c0 <- Np.getitem cstr_array 0 ;;
  c1 <- Np.getitem cstr_array 1 ;;
  c2 <- Np.getitem cstr_array 2 ;;
  o1 <- Np.getitem self_of 1 ;;
  o0 <- Np.getitem self_of 0 ;;
  let diff_begin := (-3 * c0 + 4 * c1 - c2) / (2 * (o1 - o0)) in
  a <- Np.min self_of ;;
  b <- Np.getitem cstr_array 0 ;;
  dispatch extraporate of_ Pc a b diff_begin.

(** Body of [elif self.of.max()<of:] (lines 222-240). *)
Definition func_above (self_of cstr_array : list Q) (extraporate : strategy)
    (of_ Pc : Q) : result pyval :=
  c3 <- Np.getitem cstr_array (Np.len cstr_array - 3) ;;
  c2 <- Np.getitem cstr_array (Np.len cstr_array - 2) ;;
  c1 <- Np.getitem cstr_array (Np.len cstr_array - 1) ;;
  o1 <- Np.getitem self_of (Np.len self_of - 1) ;;
  o2 <- Np.getitem self_of (Np.len self_of - 2) ;;
  let diff_end := (c3 - 4 * c2 + 3 * c1) / (2 * (o1 - o2)) in
  a <- Np.max self_of ;;
  b <- Np.getitem cstr_array (Np.len cstr_array - 1) ;;
  dispatch extraporate of_ Pc a b diff_end.

(** Body of the final [else:] (line 242). *)
Definition func_inrange (func_interp : surface) (of_ Pc : Q) : result pyval :=
  v <- Np.getitem (interp2d_call func_interp [of_] Pc) 0 ;;
  Ok (PyFloat v).

(** The closure [func(of, Pc)] returned by [gen_func]; [Pc] in Pa. *)
Definition func (self_of : list Q) (func_interp : surface) (extraporate : strategy)
    (of_ Pc : Q) : result pyval :=
  let Pc := Pc * 1.0e-6 in
  let cstr_array := interp2d_call func_interp self_of Pc in
  lo <- Np.min self_of ;;
  if Qltb of_ lo then func_below self_of cstr_array extraporate of_ Pc
  else
    hi <- Np.max self_of ;;
    if Qltb hi of_ then func_above self_of cstr_array extraporate of_ Pc
    else func_inrange func_interp of_ Pc.

Section Loader.

Variable fs : filesystem.

(** [interpolate.interp2d(x, y, z, kind="cubic", bounds_error=False)]:
    the fit may be refused, otherwise it yields a surface. *)
Variable interp2d : list Q -> list Q -> list (list Q) -> result surface.

Definition get_flist (fld_path fexten : string) : list string :=
  let path_list := glob fs (path_join fld_path ("**/*." ++ fexten)) in
  let param_list := map (fun r => str_replace r (path_join fld_path "") "") path_list in
  map (fun r => str_replace r ("." ++ fexten) "") param_list.

(** [Read_datset(fld_path, fexten)] *)
Definition init (fld_path fexten : string) : result Read_datset :=
  if path_exists fs fld_path then
    let flist := get_flist fld_path fexten in
    f0 <- Np.getitem flist 0 ;;
    let init_fpath := path_join fld_path (f0 ++ "." ++ fexten) in
    dataframe <- read_csv fs init_fpath ;;
    Ok {| fld_path := fld_path; fexten := fexten;
          of_ := Some (frame_index dataframe);
          Pc := Some (frame_columns dataframe) |}
  else
    Ok {| fld_path := fld_path; fexten := fexten; of_ := None; Pc := None |}.

Definition fpath_of (self : Read_datset) (param_name : string) : string :=
  path_join (fld_path self) (param_name ++ "." ++ fexten self).

Definition _read_csv_ (self : Read_datset) (param_name : string)
    : result (list (list Q)) :=
  let fpath := fpath_of self param_name in
  if path_exists fs fpath then
    dataframe <- read_csv fs fpath ;;
    Ok (frame_values dataframe)
  else
    Err (SystemExit 1).

Definition gen_func (self : Read_datset) (param_name : string)
    (extraporate : strategy) : result (Q -> Q -> result pyval) :=
  array <- _read_csv_ self param_name ;;
  self_of <- attr (of_ self) ;;
  self_Pc <- attr (Pc self) ;;
  func_interp <- interp2d self_of self_Pc (Np.T array) ;;
  Ok (func self_of func_interp extraporate).

(** The grid [gen_func] fits its surface to: the labels kept by the
    instance and the body read for [param_name]. *)
Definition grid_of (self : Read_datset) (param_name : string)
    : result (list Q * list Q * list (list Q)) :=
  array <- _read_csv_ self param_name ;;
  self_of <- attr (of_ self) ;;
  self_Pc <- attr (Pc self) ;;
  Ok (self_of, self_Pc, array).

End Loader.

End CeaPost.

(** ** design_EBHR.py *)

Module DesignEBHR.

(** The callable that [gen_func_cstr] hands to [func_Pc_cal]: it is
    indexed with [[0]] there, so it returns an array. *)
Definition cstr_fn : Type := Q -> Q -> result (list Q).

Definition func_Vox (Pc mox Rm Tox Df a : Q) : Q :=
  let Af := Np.pi * Np.power Df 2 / 4 in
  mox * Rm * Tox / (Pc * Af * (1 - a)).

Definition func_Vf (Vox Pc C1 C2 : Q) (n : Z) : Q :=
  (C1 / Vox + C2) * Np.power Pc n.

Definition func_of (Vox Vf rho_f Df a : Q) : Q :=
  let Af := Np.pi * Np.power Df 2 / 4 in
  Vox / (rho_f * Af * a * Vf).

Definition func_Pc_cal (of_ Pc mox : Q) (func_cstr : cstr_fn) (Dt eta : Q)
    : result Q :=
  r <- func_cstr of_ (Pc * 1.0e-6) ;;
  cstr <- Np.getitem r 0 ;;
  let At := Np.pi * Np.power Dt 2 / 4 in
  Ok (eta * cstr * mox * (1 + 1 / of_) / At).

(** An instance of [Gen_excond_table]. *)
Record Gen_excond_table : Type := {
  a : Q;
  Df : Q;
  eta : Q;
  rho_f : Q;
  Rm : Q;
  Tox : Q;
  C1 : Q;
  C2 : Q;
  cea_path : string;
  mox_range : list Q;
  Dt_range : list Q
}.

(** [Gen_excond_table(d, N, Df, eta, rho_f, Rm, Tox, C1, C2, cea_path)];
    the two ranges are what [_input_range_] builds from the typed input. *)
Definition init (d N Df eta rho_f Rm Tox C1 C2 : Q) (cea_path : string)
    (mox_range Dt_range : list Q) : Gen_excond_table :=
  {| a := 1 - N * Np.power d 2 / Np.power Df 2;
     Df := Df * 1.0e-3;
     eta := eta;
     rho_f := rho_f;
     Rm := Rm;
     Tox := Tox;
     C1 := C1;
     C2 := C2;
     cea_path := cea_path;
     mox_range := mox_range;
     Dt_range := Dt_range |}.

(** [pd.DataFrame({}, index=...)] and the column assignment [df[key] = col]:
    a column whose label is already present is overwritten in place. *)
Record DataFrame : Type := {
  index : list Q;
  columns : list (Q * list Q)
}.

Fixpoint set_column (cols : list (Q * list Q)) (key : Q) (col : list Q)
    : list (Q * list Q) :=
  match cols with
  | [] => [(key, col)]
  | (k, c) :: rest =>
      if Qeq_bool k key then (k, col) :: rest
      else (k, c) :: set_column rest key col
  end.

Definition setitem (df : DataFrame) (key : Q) (col : list Q) : DataFrame :=
  {| index := index df; columns := set_column (columns df) key col |}.

Fixpoint get_column (cols : list (Q * list Q)) (key : Q) : option (list Q) :=
  match cols with
  | [] => None
  | (k, c) :: rest => if Qeq_bool k key then Some c else get_column rest key
  end.

Section Solver.

(** [Read_datset(cea_path).gen_func(param_name)] of module [execute],
    which [design_EBHR.py] imports and the sources do not contain. *)
Variable Read_datset_gen_func : string -> string -> result cstr_fn.

(** [optimize.newton(f, x0, maxiter=.., tol=.., args=..)] *)
Variable newton : (Q -> result Q) -> Q -> nat -> Q -> result Q.

(** [optimize.brentq(f, a, b, maxiter=.., xtol=.., args=..)] *)
Variable brentq : (Q -> result Q) -> Q -> Q -> nat -> Q -> result Q.

Definition gen_func_cstr (cea_path : string) : result cstr_fn :=
  Read_datset_gen_func cea_path "CSTAR".

Definition _iterat_func_Pc_ (self : Gen_excond_table) (Pc mox Dt : Q) : result Q :=
  let Vox := func_Vox Pc mox (Rm self) (Tox self) (Df self) (a self) in
  let Vf := func_Vf Vox Pc (C1 self) (C2 self) 1 in
  let of_ := func_of Vox Vf (rho_f self) (Df self) (a self) in
  func_cstr <- gen_func_cstr (cea_path self) ;;
  Pc_cal <- func_Pc_cal of_ Pc mox func_cstr Dt (eta self) ;;
  let diff := Pc_cal - Pc in
  let error := diff / Pc_cal in
  Ok error.

Definition converge_Pc (self : Gen_excond_table) (mox Dt Pc_init : Q) : result Q :=
  try_except
    (newton (fun Pc => _iterat_func_Pc_ self Pc mox Dt) Pc_init 10 1.0e-3)
    (brentq (fun Pc => _iterat_func_Pc_ self Pc mox Dt) 1.0e+4 10e+6 50 1.0e-3).

(** The inner loop of [gen_table]: [Pc] is the column built so far. *)
Fixpoint mox_loop (self : Gen_excond_table) (Dt : Q) (todo : list Q) (Pc : list Q)
    : result (list Q) :=
  match todo with
  | [] => Ok Pc
  | mox :: rest =>
      tmp <- converge_Pc self mox Dt 1.0e+6 ;;
      mox_loop self Dt rest (Pc ++ [tmp])
  end.

(** The outer loop of [gen_table]. *)
Fixpoint Dt_loop (self : Gen_excond_table) (todo : list Q) (df : DataFrame)
    : result DataFrame :=
  match todo with
  | [] => Ok df
  | Dt :: rest =>
      Pc <- mox_loop self Dt (mox_range self) [] ;;
      Dt_loop self rest (setitem df Dt Pc)
  end.

Definition gen_table (self : Gen_excond_table) : result DataFrame :=
  let df := {| index := mox_range self; columns := [] |} in
  Dt_loop self (Dt_range self) df.

End Solver.

End DesignEBHR.

(** ** Concrete collaborators

    Executable instances of the section variables, used to run the
    embedding on concrete inputs. The theorems below do not depend on them. *)

Module Instances.

(** *** A surface builder with the behaviour of
    [interp2d(kind="cubic", bounds_error=False)]: the grid must be
    rectangular ([z] has one row per [y] and one entry per [x] in each row,
    otherwise [ValueError]); an axis of fewer than 4 samples is refused by
    the fit; a query outside the grid's box is answered at the nearest point
    of the box. Inside the box the surface is the tensor-product Lagrange
    polynomial, which on a 4x4 grid is the bicubic interpolating spline (no
    interior knots). *)

Definition lagrange_basis (xs : list Q) (i : nat) (x : Q) : Q :=
  fold_right Qmult 1
    (map (fun k => if Nat.eqb k i then 1
                   else (x - nth k xs 0) / (nth i xs 0 - nth k xs 0))
         (seq 0 (List.length xs))).

Definition lagrange1 (xs vs : list Q) (x : Q) : Q :=
  fold_right Qplus 0
    (map (fun i => nth i vs 0 * lagrange_basis xs i x) (seq 0 (List.length xs))).

Definition lagrange2 (xs ys : list Q) (z : list (list Q)) : surface :=
  fun x y => Qred (lagrange1 ys (map (fun row => lagrange1 xs row x) z) y).

Definition rectangular (nx ny : nat) (z : list (list Q)) : bool :=
  (Nat.eqb (List.length z) ny
   && forallb (fun row => Nat.eqb (List.length row) nx) z)%bool.

Definition clamp (lo hi x : Q) : Q :=
  if Qltb x lo then lo else if Qltb hi x then hi else x.

Definition clamped_poly (xs ys : list Q) (z : list (list Q))
    (x_min x_max y_min y_max : Q) : surface :=
  fun x y => lagrange2 xs ys z (clamp x_min x_max x) (clamp y_min y_max y).

Definition interp2d_poly (xs ys : list Q) (z : list (list Q)) : result surface :=
  if rectangular (List.length xs) (List.length ys) z
  then
    if (Nat.leb 4 (List.length xs) && Nat.leb 4 (List.length ys))%bool
    then
      x_min <- Np.min xs ;;
      x_max <- Np.max xs ;;
      y_min <- Np.min ys ;;
      y_max <- Np.max ys ;;
      Ok (clamped_poly xs ys z x_min x_max y_min y_max)
    else Err FitpackError
  else Err ValueError.

(** *** An in-memory file system *)

Definition mem_fs (dirs : list string) (files : list (string * csv_frame))
    : filesystem :=
  let lookup := fix lookup (l : list (string * csv_frame)) (p : string) :=
    match l with
    | [] => None
    | (q, d) :: r => if String.eqb q p then Some d else lookup r p
    end in
  {| path_exists := fun p =>
       (existsb (String.eqb p) dirs
        || match lookup files p with Some _ => true | None => false end)%bool;
     read_csv := fun p =>
       match lookup files p with Some d => Ok d | None => Err FileNotFoundError end;
     glob := fun pat =>
       filter (fun p => String.prefix (str_replace pat "**/*.csv" "") p)
              (map fst files) |}.

(** A 4x4 characteristic-velocity table: O/F 1..4, Pc 1..4 MPa. *)
Definition cstar_frame : csv_frame :=
  {| frame_index := [1; 2; 3; 4];
     frame_columns := [1; 2; 3; 4];
     frame_values := [[1400; 1410; 1420; 1430];
                      [1500; 1512; 1524; 1536];
                      [1580; 1590; 1600; 1610];
                      [1550; 1565; 1580; 1595]] |}.

(** A table of the same folder with other labels. *)
Definition gamma_frame : csv_frame :=
  {| frame_index := [2; 4; 6; 8];
     frame_columns := [1; 2; 3; 4];
     frame_values := [[1.20; 1.21; 1.22; 1.23];
                      [1.18; 1.19; 1.20; 1.21];
                      [1.16; 1.17; 1.18; 1.19];
                      [1.15; 1.16; 1.17; 1.18]] |}.

(** A table with two mixture-ratio rows only. *)
Definition short_frame : csv_frame :=
  {| frame_index := [1; 2];
     frame_columns := [1; 2; 3; 4];
     frame_values := [[1400; 1410; 1420; 1430];
                      [1500; 1512; 1524; 1536]] |}.

Definition db_fs : filesystem :=
  mem_fs ["db"; "mixed"; "short"]%string
         [("db/CSTAR.csv", cstar_frame);
          ("mixed/CSTAR.csv", cstar_frame);
          ("mixed/GAMMAs.csv", gamma_frame);
          ("short/CSTAR.csv", short_frame);
          ("/data/CSTAR.csv", cstar_frame)]%string.

(** *** A [Read_datset] of the interface [design_EBHR.py] is written
    against: the callable takes the pressure in MPa and returns an array.
    Here the characteristic velocity is the constant 1500 m/s. *)
Definition const_cstr_db (cea_path param_name : string)
    : result DesignEBHR.cstr_fn :=
  if (String.eqb cea_path "cea_db/out" && String.eqb param_name "CSTAR")%bool
  then Ok (fun _ _ => Ok [1500])
  else Err (SystemExit 1).

(** *** Root finders. Iterates are kept on a grid of 1e-6, which stands in
    for the rounding of floating-point arithmetic. *)

Definition snap (x : Q) : Q := inject_Z (Qfloor (x * 1000000)) / 1000000.

(** The secant iteration of [scipy.optimize.newton] without derivative:
    stops when two successive iterates are within [tol], raises when the
    budget is used up or the secant is flat. *)
Fixpoint secant_loop (f : Q -> result Q) (tol : Q) (fuel : nat)
    (p0 q0 p1 q1 : Q) : result Q :=
  match fuel with
  | O => Err RuntimeError
  | S k =>
      if Qeq_bool q1 q0 then
        if Qeq_bool p1 p0 then Ok (Qred ((p1 + p0) / 2)) else Err RuntimeError
      else
        let p := if Qltb (Qabs q0) (Qabs q1)
                 then (- q0 / q1 * p1 + p0) / (1 - q0 / q1)
                 else (- q1 / q0 * p0 + p1) / (1 - q1 / q0) in
        let p := Qred (snap p) in
        if Qle_bool (Qabs (p - p1)) tol then Ok p
        else q <- f p ;; secant_loop f tol k p1 q1 p (Qred q)
  end.

Definition newton_secant (f : Q -> result Q) (x0 : Q) (maxiter : nat) (tol : Q)
    : result Q :=
  let p0 := x0 in
  let p1 := Qred (x0 * (1 + 1e-4) + (if Qle_bool 0 x0 then 1e-4 else - 1e-4)) in
  q0 <- f p0 ;;
  q1 <- f p1 ;;
  if Qltb (Qabs q1) (Qabs q0)
  then secant_loop f tol maxiter p1 (Qred q1) p0 (Qred q0)
  else secant_loop f tol maxiter p0 (Qred q0) p1 (Qred q1).

(** A bracketing search with [scipy.optimize.brentq]'s contract: the
    residual must change sign over [[lo, hi]], otherwise [ValueError];
    [RuntimeError] when the budget is used up. *)
Fixpoint bisect_loop (f : Q -> result Q) (xtol : Q) (fuel : nat)
    (lo flo hi : Q) : result Q :=
  match fuel with
  | O => Err RuntimeError
  | S k =>
      let mid := Qred ((lo + hi) / 2) in
      if Qle_bool (Qabs (hi - lo)) (2 * xtol) then Ok mid
      else
        fmid <- f mid ;;
        if Qeq_bool fmid 0 then Ok mid
        else if Qltb (flo * fmid) 0 then bisect_loop f xtol k lo flo mid
        else bisect_loop f xtol k mid (Qred fmid) hi
  end.

Definition brentq_bisect (f : Q -> result Q) (lo hi : Q) (maxiter : nat) (xtol : Q)
    : result Q :=
  flo <- f lo ;;
  fhi <- f hi ;;
  if Qltb 0 (flo * fhi) then Err ValueError
  else bisect_loop f xtol maxiter lo (Qred flo) hi.

(** The motor of the [__main__] block of [design_EBHR.py]. *)
Definition motor (mox_range Dt_range : list Q) : DesignEBHR.Gen_excond_table :=
  DesignEBHR.init 0.3 433 38 0.9 1191 259.8 280 9.34e-8 2.46e-9
                  "cea_db/out" mox_range Dt_range.

(** *** Sample inputs *)

(** The readers that [Read_datset("db")], [Read_datset("mixed")] and
    [Read_datset("short")] construct on [db_fs]. *)
Definition db_reader : CeaPost.Read_datset :=
  {| CeaPost.fld_path := "db"; CeaPost.fexten := "csv";
     CeaPost.of_ := Some [1; 2; 3; 4]; CeaPost.Pc := Some [1; 2; 3; 4] |}.

Definition mixed_reader : CeaPost.Read_datset :=
  {| CeaPost.fld_path := "mixed"; CeaPost.fexten := "csv";
     CeaPost.of_ := Some [1; 2; 3; 4]; CeaPost.Pc := Some [1; 2; 3; 4] |}.

Definition short_reader : CeaPost.Read_datset :=
  {| CeaPost.fld_path := "short"; CeaPost.fexten := "csv";
     CeaPost.of_ := Some [1; 2]; CeaPost.Pc := Some [1; 2; 3; 4] |}.

(** The reader that [Read_datset("nowhere")] constructs: the folder does
    not exist on [db_fs]. *)
Definition nowhere_reader : CeaPost.Read_datset :=
  {| CeaPost.fld_path := "nowhere"; CeaPost.fexten := "csv";
     CeaPost.of_ := None; CeaPost.Pc := None |}.

Definition cstar_surface : surface :=
  clamped_poly [1; 2; 3; 4] [1; 2; 3; 4] (Np.T (frame_values cstar_frame)) 1 4 1 4.

(** A characteristic velocity that depends on the pressure it is asked at. *)
Definition pressure_sensitive_cstr : DesignEBHR.cstr_fn :=
  fun _ pc => Ok [1000 + pc].

(** A sweep over 1 and 2 g/s and over 1 and 2 mm. *)
Definition sweep_motor : DesignEBHR.Gen_excond_table :=
  motor [0.001; 0.002] [0.001; 0.002].

Definition single_motor : DesignEBHR.Gen_excond_table := motor [] [].

(** A sweep over 10 and 20 g/s and over 5 and 7 mm. *)
Definition full_motor : DesignEBHR.Gen_excond_table :=
  motor [0.01; 0.02] [0.005; 0.007].

(** A sweep with throat diameters but no mass-flow value. *)
Definition empty_motor : DesignEBHR.Gen_excond_table :=
  motor [] [0.005; 0.007].

End Instances.

(** The reading of [predictedChamberPressure] in which the characteristic
    velocity is looked up at the point [(of, Pc)] itself. *)
Definition predictedChamberPressure_at_of_Pc (of_ Pc mox : Q)
    (charVelocityFn : DesignEBHR.cstr_fn) (Dt efficiency : Q) : result Q :=
  r <- charVelocityFn of_ Pc ;;
  cstar <- Np.getitem r 0 ;;
  Ok (efficiency * cstar * mox * (1 + 1 / of_) / (Np.pi * Dt ^ 2 / 4)).

(** One-sided three-point finite differences on a uniform step [h]:
    at the left end from [f0 f1 f2], at the right end from the last three
    samples [f0 f1 f2] (the slope is taken at [f2]). *)
Definition three_point_begin (f0 f1 f2 h : Q) : Q :=
  (-3 * f0 + 4 * f1 - f2) / (2 * h).

Definition three_point_end (f0 f1 f2 h : Q) : Q :=
  (f0 - 4 * f1 + 3 * f2) / (2 * h).


(** [old] occurs somewhere in [s]. *)
Definition occurs (old s : string) : Prop :=
  exists pre post, s = (pre ++ old ++ post)%string.

(** [old] occurs in [s] at its very end only. *)
Definition only_at_end (old s : string) : Prop :=
  forall pre post, s = (pre ++ old ++ post)%string -> post = EmptyString.

(** A table name that [get_flist] can recover from the table's path: the
    file name does not contain the folder prefix, and contains the
    extension as its ending only. *)
Definition well_named (fld ext name : string) : Prop :=
  (fld = EmptyString \/ ~ occurs (path_join fld "") (name ++ "." ++ ext)%string)
  /\ only_at_end ("." ++ ext)%string (name ++ "." ++ ext)%string.

(** * Theorems *)

(** ** The error monad *)

Lemma bind_Ok_inv {A B : Type} (c : result A) (k : A -> result B) (b : B) :
  bind c k = Ok b -> exists a, c = Ok a /\ k a = Ok b.
Proof.
  destruct c as [a | e]; simpl; intros H; [exists a; auto | discriminate].
Qed.

Lemma bind_Err_l {A B : Type} (c : result A) (k : A -> result B) (e : exn) :
  c = Err e -> bind c k = Err e.
Proof. intros ->; reflexivity. Qed.

(** ** Physical correlation model and solver *)

Section SolverFacts.

Import DesignEBHR.

Variable Read_datset_gen_func : string -> string -> result cstr_fn.
Variable newton : (Q -> result Q) -> Q -> nat -> Q -> result Q.
Variable brentq : (Q -> result Q) -> Q -> Q -> nat -> Q -> result Q.

Let residual := _iterat_func_Pc_ Read_datset_gen_func.
Let solve := converge_Pc Read_datset_gen_func newton brentq.

(** C2, as the code has it: the characteristic-velocity function is
    called at [(of, Pc * 1e-6)], the pressure converted from Pa to MPa, the
    first entry of the returned array is taken, and the result is
    [eta * cstr * mox * (1 + 1/of) / (pi * Dt^2 / 4)]. *)
Theorem func_Pc_cal_lookup_in_MPa :
  forall (of_ Pc mox Dt eta : Q) (func_cstr : cstr_fn) (r : list Q) (cstr : Q),
    func_cstr of_ (Pc * 1.0e-6) = Ok r ->
    Np.getitem r 0 = Ok cstr ->
    func_Pc_cal of_ Pc mox func_cstr Dt eta
    = Ok (eta * cstr * mox * (1 + 1 / of_) / (Np.pi * Dt ^ 2 / 4)).
Proof.
  intros of_ Pc mox Dt eta func_cstr r cstr Hr Hc.
  unfold func_Pc_cal. rewrite Hr. simpl. rewrite Hc. reflexivity.
Qed.

(** The model never catches: a failing lookup is the failure of
    [func_Pc_cal]. *)
Lemma func_Pc_cal_propagates :
  forall (of_ Pc mox Dt eta : Q) (func_cstr : cstr_fn) (e : exn),
    func_cstr of_ (Pc * 1.0e-6) = Err e ->
    func_Pc_cal of_ Pc mox func_cstr Dt eta = Err e.
Proof.
  intros. unfold func_Pc_cal. now apply bind_Err_l.
Qed.

(** C7, as the code has it: the residual handed to the root finders is
    the relative difference [(Pc_cal - Pc) / Pc_cal], where [Pc_cal] is
    [func_Pc_cal] at the mixture ratio of the velocity chain. *)
Theorem residual_is_relative_difference :
  forall (self : Gen_excond_table) (Pc mox Dt : Q) (func_cstr : cstr_fn) (Pc_cal : Q),
    let Vox := func_Vox Pc mox (Rm self) (Tox self) (Df self) (a self) in
    let Vf := func_Vf Vox Pc (C1 self) (C2 self) 1 in
    let of_ := func_of Vox Vf (rho_f self) (Df self) (a self) in
    gen_func_cstr Read_datset_gen_func (cea_path self) = Ok func_cstr ->
    func_Pc_cal of_ Pc mox func_cstr Dt (eta self) = Ok Pc_cal ->
    _iterat_func_Pc_ Read_datset_gen_func self Pc mox Dt
    = Ok ((Pc_cal - Pc) / Pc_cal).
Proof.
  intros self Pc mox Dt func_cstr Pc_cal Vox Vf of_ Hdb Hcal.
  unfold _iterat_func_Pc_. rewrite Hdb. simpl.
  fold Vox. fold Vf. fold of_. rewrite Hcal. reflexivity.
Qed.

Lemma brent_bracket_upper_end : 10e+6 == 1.0e+7.
Proof. reflexivity. Qed.

Lemma newton_success_is_returned :
  forall (self : Gen_excond_table) (mox Dt Pc_init p : Q),
    newton (fun Pc => residual self Pc mox Dt) Pc_init 10 1.0e-3 = Ok p ->
    solve self mox Dt Pc_init = Ok p.
Proof.
  intros self mox Dt Pc_init p H. unfold solve, converge_Pc, residual in *.
  rewrite H. reflexivity.
Qed.

(** C3: whatever makes the Newton attempt (at most 10 iterations) fail,
    the failure is swallowed and the answer of the solver is the answer of
    the Brent search over [1e4, 1e7] Pa (the source writes the upper end
    [10e+6]) with 50 iterations; the solver fails exactly when that search
    fails, with the search's error. *)
Theorem newton_failure_falls_back_to_brent :
  forall (self : Gen_excond_table) (mox Dt Pc_init : Q) (e : exn),
    newton (fun Pc => residual self Pc mox Dt) Pc_init 10 1.0e-3 = Err e ->
    solve self mox Dt Pc_init
    = brentq (fun Pc => residual self Pc mox Dt) 1.0e+4 10e+6 50 1.0e-3
    /\ (forall e', solve self mox Dt Pc_init = Err e' <->
                   brentq (fun Pc => residual self Pc mox Dt)
                          1.0e+4 10e+6 50 1.0e-3 = Err e').
Proof.
  intros self mox Dt Pc_init e H.
  assert (E : solve self mox Dt Pc_init
              = brentq (fun Pc => residual self Pc mox Dt) 1.0e+4 10e+6 50 1.0e-3).
  { unfold solve, converge_Pc, residual in *. rewrite H. reflexivity. }
  split; [exact E |]. intros e'. rewrite E. tauto.
Qed.

(** An error leaves the solver only after both attempts have failed. *)
Lemma solver_error_needs_both_failures :
  forall (self : Gen_excond_table) (mox Dt Pc_init : Q) (e' : exn),
    solve self mox Dt Pc_init = Err e' ->
    (exists e, newton (fun Pc => residual self Pc mox Dt) Pc_init 10 1.0e-3 = Err e)
    /\ brentq (fun Pc => residual self Pc mox Dt) 1.0e+4 10e+6 50 1.0e-3 = Err e'.
Proof.
  intros self mox Dt Pc_init e'. unfold solve, converge_Pc, residual.
  destruct (newton _ Pc_init 10%nat 1.0e-3) as [p | e] eqn:N; simpl.
  - discriminate.
  - intros H. split; [exists e; reflexivity | exact H].
Qed.

End SolverFacts.

(** ** The batch sweep *)

Section ColumnFacts.

Import DesignEBHR.

Lemma Qeq_bool_trans_true (x y z : Q) :
  Qeq_bool x y = true -> Qeq_bool y z = true -> Qeq_bool x z = true.
Proof.
  rewrite !Qeq_bool_iff. intros H1 H2. now rewrite H1.
Qed.

Lemma Qeq_bool_left_false (x y z : Q) :
  Qeq_bool x y = true -> Qeq_bool y z = false -> Qeq_bool x z = false.
Proof.
  intros H1 H2. destruct (Qeq_bool x z) eqn:E; [| reflexivity].
  rewrite <- H2. symmetry. apply Qeq_bool_iff.
  apply Qeq_bool_iff in H1, E. now rewrite <- H1.
Qed.

(** Reading a column back after [df[key] = col]. *)
Lemma get_set_column (cols : list (Q * list Q)) (key key' : Q) (col : list Q) :
  get_column (set_column cols key col) key'
  = if Qeq_bool key key' then Some col else get_column cols key'.
Proof.
  induction cols as [| [k c] rest IH]; simpl.
  - reflexivity.
  - destruct (Qeq_bool k key) eqn:Ek; simpl.
    + destruct (Qeq_bool key key') eqn:Ekk.
      * now rewrite (Qeq_bool_trans_true _ _ _ Ek Ekk).
      * now rewrite (Qeq_bool_left_false _ _ _ Ek Ekk).
    + rewrite IH. destruct (Qeq_bool k key') eqn:Ek'; [| reflexivity].
      destruct (Qeq_bool key key') eqn:Ekk; [| reflexivity].
      exfalso. apply Qeq_bool_iff in Ek', Ekk.
      assert (Hk : k == key) by (now rewrite Ek', Ekk).
      apply Qeq_bool_iff in Hk. congruence.
Qed.

End ColumnFacts.

Section SweepFacts.

Import DesignEBHR.

Variable Read_datset_gen_func : string -> string -> result cstr_fn.
Variable newton : (Q -> result Q) -> Q -> nat -> Q -> result Q.
Variable brentq : (Q -> result Q) -> Q -> Q -> nat -> Q -> result Q.
Variable self : Gen_excond_table.

(** One cell of the sweep: always started from the guess [1e6]. *)
Let cell (mox Dt : Q) : result Q :=
  converge_Pc Read_datset_gen_func newton brentq self mox Dt 1.0e+6.
Let inner := mox_loop Read_datset_gen_func newton brentq self.
Let outer := Dt_loop Read_datset_gen_func newton brentq self.

Lemma mox_loop_all_converged (Dt : Q) (todo : list Q) :
  (forall mox, In mox todo -> exists p, cell mox Dt = Ok p) ->
  forall acc, exists col,
    inner Dt todo acc = Ok (acc ++ col)
    /\ Forall2 (fun mox p => cell mox Dt = Ok p) todo col.
Proof.
  induction todo as [| mox rest IH]; intros Hall acc.
  - exists []. split; [simpl; now rewrite app_nil_r | constructor].
  - destruct (Hall mox (or_introl eq_refl)) as [p Hp].
    destruct (IH (fun m Hm => Hall m (or_intror Hm)) (acc ++ [p])) as [col [Hrun Hcol]].
    exists (p :: col). split.
    + unfold inner in *. simpl. unfold cell in Hp. rewrite Hp. simpl.
      rewrite Hrun. now rewrite <- app_assoc.
    + constructor; assumption.
Qed.

Lemma mox_loop_one_failure (Dt : Q) (todo : list Q) :
  (exists mox e, In mox todo /\ cell mox Dt = Err e) ->
  forall acc, exists e', inner Dt todo acc = Err e'.
Proof.
  induction todo as [| m rest IH]; intros [mox [e [Hin He]]] acc.
  - destruct Hin.
  - unfold inner in *. simpl. fold (cell m Dt).
    destruct (cell m Dt) as [p | e0] eqn:Hm; simpl.
    + destruct Hin as [-> | Hin]; [congruence |].
      apply IH. exists mox, e. split; assumption.
    + exists e0. reflexivity.
Qed.

Lemma Dt_loop_one_failure (todo : list Q) :
  (exists mox Dt e, In mox (mox_range self) /\ In Dt todo /\ cell mox Dt = Err e) ->
  forall df, exists e', outer todo df = Err e'.
Proof.
  induction todo as [| D rest IH]; intros [mox [Dt [e [Hm [Hin He]]]]] df.
  - destruct Hin.
  - unfold outer in *. simpl. fold (inner D (mox_range self) []).
    destruct (inner D (mox_range self) []) as [col | e0] eqn:Hcol; simpl.
    + destruct Hin as [-> | Hin].
      * destruct (mox_loop_one_failure Dt (mox_range self)
                    (ex_intro _ mox (ex_intro _ e (conj Hm He))) []) as [e' He'].
        congruence.
      * apply IH. exists mox, Dt, e. repeat split; assumption.
    + exists e0. reflexivity.
Qed.

Lemma Dt_loop_all_converged (todo : list Q) :
  (forall mox Dt, In mox (mox_range self) -> In Dt todo -> exists p, cell mox Dt = Ok p) ->
  NoDupA Qeq todo ->
  forall df, exists df',
    outer todo df = Ok df'
    /\ index df' = index df
    /\ (forall Dt, In Dt todo ->
          exists col, get_column (columns df') Dt = Some col
                      /\ Forall2 (fun mox p => cell mox Dt = Ok p) (mox_range self) col)
    /\ (forall key, ~ InA Qeq key todo ->
          get_column (columns df') key = get_column (columns df) key).
Proof.
  induction todo as [| D rest IH]; intros Hall Hnd df.
  - exists df. split; [reflexivity |]. split; [reflexivity |].
    split; [intros Dt [] | reflexivity].
  - inversion Hnd as [| ? ? Hfresh Hnd']; subst.
    destruct (mox_loop_all_converged D (mox_range self)
                (fun m Hm => Hall m D Hm (or_introl eq_refl)) []) as [col [Hrun Hcol]].
    simpl in Hrun.
    destruct (IH (fun m Dt Hm HD => Hall m Dt Hm (or_intror HD)) Hnd' (setitem df D col))
      as [df' [Hout [Hidx [Hcols Hkeep]]]].
    exists df'. split; [| split; [| split]].
    + unfold outer in *. simpl. fold (inner D (mox_range self) []).
      rewrite Hrun. simpl. exact Hout.
    + rewrite Hidx. reflexivity.
    + intros Dt [-> | Hin].
      * exists col. split; [| exact Hcol].
        rewrite (Hkeep Dt Hfresh). simpl. rewrite get_set_column.
        now rewrite (proj2 (Qeq_bool_iff Dt Dt) (Qeq_refl Dt)).
      * apply Hcols, Hin.
    + intros key Hkey.
      rewrite Hkeep by (intros H; apply Hkey; now right).
      simpl. rewrite get_set_column.
      destruct (Qeq_bool D key) eqn:E; [| reflexivity].
      exfalso. apply Hkey. left. symmetry. now apply Qeq_bool_iff.
Qed.

(** C1, as the code has it: every cell is solved from the same initial
    guess [1e6] by a call that depends on its own [(mox, Dt)] only. If
    every cell converges, the table has the mass-flow values as index and,
    for each throat diameter, the column of the converged pressures. A
    cell that fails is not recorded: its error leaves [gen_table], and no
    table is produced. *)
Theorem gen_table_all_or_nothing :
  ((forall mox Dt, In mox (mox_range self) -> In Dt (Dt_range self) ->
                   exists p, cell mox Dt = Ok p) ->
   NoDupA Qeq (Dt_range self) ->
   exists df,
     gen_table Read_datset_gen_func newton brentq self = Ok df
     /\ index df = mox_range self
     /\ forall Dt, In Dt (Dt_range self) ->
          exists col, get_column (columns df) Dt = Some col
                      /\ Forall2 (fun mox p => cell mox Dt = Ok p) (mox_range self) col)
  /\
  (forall mox Dt e, In mox (mox_range self) -> In Dt (Dt_range self) ->
                    cell mox Dt = Err e ->
     exists e', gen_table Read_datset_gen_func newton brentq self = Err e').
Proof.
  split.
  - intros Hall Hnd.
    destruct (Dt_loop_all_converged (Dt_range self) Hall Hnd
                {| index := mox_range self; columns := [] |})
      as [df [Hrun [Hidx [Hcols _]]]].
    exists df. repeat split; assumption.
  - intros mox Dt e Hm HD He. unfold gen_table.
    apply Dt_loop_one_failure. exists mox, Dt, e. repeat split; assumption.
Qed.

End SweepFacts.

(** ** numpy facts *)

Section NumpyFacts.

Lemma Qltb_true (x y : Q) : Qltb x y = true <-> x < y.
Proof.
  unfold Qltb. rewrite negb_true_iff. split.
  - intros H. apply Qnot_le_lt. intros Hle.
    apply Qle_bool_iff in Hle. congruence.
  - intros H. destruct (Qle_bool y x) eqn:E; [| reflexivity].
    apply Qle_bool_iff in E. exfalso. now apply (Qlt_not_le x y).
Qed.

Lemma Qltb_false (x y : Q) : Qltb x y = false <-> y <= x.
Proof.
  unfold Qltb. rewrite negb_false_iff. apply Qle_bool_iff.
Qed.

Lemma getitem_in_range {A : Type} (l : list A) (i : Z) (d : A) :
  (- Np.len l <= i < Np.len l)%Z ->
  Np.getitem l i
  = Ok (nth (Z.to_nat (if (i <? 0)%Z then Np.len l + i else i)) l d).
Proof.
  unfold Np.getitem, Np.len. intros Hi.
  set (n := Z.of_nat (List.length l)) in *.
  set (j := if (i <? 0)%Z then (n + i)%Z else i).
  assert (Hj : (0 <= j < n)%Z).
  { unfold j. destruct (i <? 0)%Z eqn:E; [apply Z.ltb_lt in E | apply Z.ltb_ge in E]; lia. }
  replace ((0 <=? j)%Z && (j <? n)%Z)%bool with true
    by (symmetry; apply andb_true_iff; split; [apply Z.leb_le | apply Z.ltb_lt]; lia).
  assert (Hlt : (Z.to_nat j < List.length l)%nat) by (unfold n in Hj; lia).
  destruct (nth_error l (Z.to_nat j)) as [x |] eqn:E.
  - now rewrite (nth_error_nth l (Z.to_nat j) d E).
  - apply nth_error_None in E. lia.
Qed.

Lemma getitem_out_of_range {A : Type} (l : list A) (i : Z) :
  (i < - Np.len l \/ Np.len l <= i)%Z -> Np.getitem l i = Err IndexError.
Proof.
  unfold Np.getitem, Np.len. intros Hi.
  set (n := Z.of_nat (List.length l)) in *.
  assert (Hn : (0 <= n)%Z) by (unfold n; lia).
  destruct (i <? 0)%Z eqn:E; [apply Z.ltb_lt in E | apply Z.ltb_ge in E].
  - replace ((0 <=? n + i)%Z && (n + i <? n)%Z)%bool with false; [reflexivity |].
    symmetry. apply andb_false_iff. left. apply Z.leb_gt. lia.
  - replace ((0 <=? i)%Z && (i <? n)%Z)%bool with false; [reflexivity |].
    symmetry. apply andb_false_iff. right. apply Z.ltb_ge. lia.
Qed.

Lemma minimum_le (x y : Q) : Np.minimum x y <= x /\ Np.minimum x y <= y.
Proof.
  unfold Np.minimum. destruct (Qle_bool x y) eqn:E.
  - apply Qle_bool_iff in E. split; [apply Qle_refl | exact E].
  - split; [| apply Qle_refl]. apply Qlt_le_weak, Qltb_true.
    unfold Qltb. now rewrite E.
Qed.

Lemma maximum_ge (x y : Q) : x <= Np.maximum x y /\ y <= Np.maximum x y.
Proof.
  unfold Np.maximum. destruct (Qle_bool x y) eqn:E.
  - apply Qle_bool_iff in E. split; [exact E | apply Qle_refl].
  - split; [apply Qle_refl |]. apply Qlt_le_weak, Qltb_true.
    unfold Qltb. now rewrite E.
Qed.

Lemma fold_minimum_le (r : list Q) :
  forall x, fold_left Np.minimum r x <= x
            /\ forall y, In y r -> fold_left Np.minimum r x <= y.
Proof.
  induction r as [| z r IH]; intros x; simpl.
  - split; [apply Qle_refl | intros y []].
  - destruct (IH (Np.minimum x z)) as [H1 H2].
    destruct (minimum_le x z) as [Hx Hz]. split.
    + eapply Qle_trans; eassumption.
    + intros y [<- | Hy]; [eapply Qle_trans; eassumption | now apply H2].
Qed.

Lemma fold_maximum_ge (r : list Q) :
  forall x, x <= fold_left Np.maximum r x
            /\ forall y, In y r -> y <= fold_left Np.maximum r x.
Proof.
  induction r as [| z r IH]; intros x; simpl.
  - split; [apply Qle_refl | intros y []].
  - destruct (IH (Np.maximum x z)) as [H1 H2].
    destruct (maximum_ge x z) as [Hx Hz]. split.
    + eapply Qle_trans; eassumption.
    + intros y [<- | Hy]; [eapply Qle_trans; eassumption | now apply H2].
Qed.

Lemma min_is_lower_bound (l : list Q) (lo : Q) :
  Np.min l = Ok lo -> forall x, In x l -> lo <= x.
Proof.
  destruct l as [| h r]; simpl; [discriminate |].
  destruct (fold_minimum_le r h) as [H1 H2].
  intros [= <-] x [<- | Hx]; [exact H1 | now apply H2].
Qed.

Lemma max_is_upper_bound (l : list Q) (hi : Q) :
  Np.max l = Ok hi -> forall x, In x l -> x <= hi.
Proof.
  destruct l as [| h r]; simpl; [discriminate |].
  destruct (fold_maximum_ge r h) as [H1 H2].
  intros [= <-] x [<- | Hx]; [exact H1 | now apply H2].
Qed.

Lemma min_le_max (l : list Q) (lo hi : Q) :
  Np.min l = Ok lo -> Np.max l = Ok hi -> lo <= hi.
Proof.
  intros Hlo Hhi. destruct l as [| h r]; [discriminate |].
  apply Qle_trans with h.
  - apply (min_is_lower_bound _ _ Hlo). now left.
  - apply (max_is_upper_bound _ _ Hhi). now left.
Qed.

Lemma insert_length (x : Q) (l : list Q) :
  List.length (Np.insert x l) = S (List.length l).
Proof.
  induction l as [| y r IH]; simpl; [reflexivity |].
  destruct (Qle_bool x y); simpl; [reflexivity | now rewrite IH].
Qed.

Lemma sort_length (l : list Q) : List.length (Np.sort l) = List.length l.
Proof.
  induction l as [| x r IH]; simpl; [reflexivity |].
  unfold Np.sort in *. simpl. now rewrite insert_length, IH.
Qed.

Lemma interp2d_call_length (s : surface) (x : list Q) (y : Q) :
  List.length (interp2d_call s x y) = List.length x.
Proof.
  unfold interp2d_call. now rewrite length_map, sort_length.
Qed.

(** On a strictly increasing grid, sorting changes nothing, the minimum
    is the first point and the maximum the last. *)
Lemma sort_increasing (l : list Q) : StronglySorted Qlt l -> Np.sort l = l.
Proof.
  induction 1 as [| x r Hr IH Hx]; [reflexivity |].
  unfold Np.sort in *. simpl. rewrite IH.
  destruct r as [| y r']; [reflexivity |]. simpl.
  inversion Hx as [| ? ? Hxy _]; subst.
  now rewrite (proj2 (Qle_bool_iff x y) (Qlt_le_weak _ _ Hxy)).
Qed.

Lemma min_increasing (x : Q) (r : list Q) :
  StronglySorted Qlt (x :: r) -> Np.min (x :: r) = Ok x.
Proof.
  intros H. inversion H as [| ? ? _ Hx]; subst. clear H. simpl. f_equal.
  induction r as [| y r IH]; simpl; [reflexivity |].
  inversion Hx as [| ? ? Hxy Hr]; subst.
  unfold Np.minimum at 2.
  rewrite (proj2 (Qle_bool_iff x y) (Qlt_le_weak _ _ Hxy)). now apply IH.
Qed.

Lemma max_increasing (l : list Q) :
  StronglySorted Qlt l -> l <> [] ->
  Np.max l = Ok (nth (List.length l - 1) l 0).
Proof.
  destruct l as [| x r]; [congruence |]. intros H _. simpl. f_equal.
  rewrite Nat.sub_0_r. revert x H.
  induction r as [| y r IH]; intros x H; [reflexivity |].
  inversion H as [| ? ? Hr Hx]; subst.
  inversion Hx as [| ? ? Hxy _]; subst.
  cbn [fold_left List.length]. unfold Np.maximum at 2.
  rewrite (proj2 (Qle_bool_iff x y) (Qlt_le_weak _ _ Hxy)).
  rewrite (IH y Hr). reflexivity.
Qed.

(** [a.T[j][i] = a[i][j]] inside the array. *)
Lemma T_nth (a : list (list Q)) (i j : nat) :
  (j < Np.ncols a)%nat ->
  nth i (nth j (Np.T a) []) 0 = nth j (nth i a []) 0.
Proof.
  intros Hj. unfold Np.T.
  rewrite (nth_indep _ [] (map (fun r => nth j r 0) a))
    by (now rewrite length_map, length_seq).
  rewrite (map_nth (fun j => map (fun r => nth j r 0) a) (seq 0 (Np.ncols a)) j j).
  rewrite seq_nth by exact Hj. simpl.
  destruct (Nat.lt_ge_cases i (List.length a)) as [Hi | Hi].
  - rewrite (nth_indep _ 0 (nth j [] 0)) by (now rewrite length_map).
    now rewrite (map_nth (fun r => nth j r 0) a [] i).
  - rewrite (nth_overflow _ 0) by (now rewrite length_map).
    rewrite (nth_overflow a []) by exact Hi. now destruct j.
Qed.

End NumpyFacts.

(** ** The interpolation/extrapolation engine *)

Section EngineFacts.

Import CeaPost.

Lemma getitem_nonneg {A : Type} (l : list A) (i : Z) (d : A) :
  (0 <= i < Np.len l)%Z -> Np.getitem l i = Ok (nth (Z.to_nat i) l d).
Proof.
  intros Hi. rewrite (getitem_in_range l i d) by lia.
  now replace (i <? 0)%Z with false by (symmetry; apply Z.ltb_ge; lia).
Qed.

Lemma getitem_from_end {A : Type} (l : list A) (k : nat) (d : A) :
  (1 <= k <= List.length l)%nat ->
  Np.getitem l (Np.len l - Z.of_nat k) = Ok (nth (List.length l - k) l d).
Proof.
  intros Hk. rewrite (getitem_nonneg l _ d) by (unfold Np.len; lia).
  f_equal. f_equal. unfold Np.len. lia.
Qed.

Lemma sample_nth (s : surface) (grid : list Q) (p : Q) (i : nat) :
  nth i (map (fun xi => s xi p) grid) (s 0 p) = s (nth i grid 0) p.
Proof. exact (map_nth (fun xi => s xi p) grid 0 i). Qed.

(** Which branch of [func] runs. *)
Lemma func_below_reached (grid : list Q) (s : surface) (strat : strategy)
    (o_f P lo : Q) :
  Np.min grid = Ok lo -> o_f < lo ->
  func grid s strat o_f P
  = func_below grid (interp2d_call s grid (P * 1.0e-6)) strat o_f (P * 1.0e-6).
Proof.
  intros Hlo Hlt. unfold func. rewrite Hlo. simpl.
  now rewrite (proj2 (Qltb_true o_f lo) Hlt).
Qed.

Lemma func_above_reached (grid : list Q) (s : surface) (strat : strategy)
    (o_f P hi : Q) :
  Np.max grid = Ok hi -> hi < o_f ->
  func grid s strat o_f P
  = func_above grid (interp2d_call s grid (P * 1.0e-6)) strat o_f (P * 1.0e-6).
Proof.
  intros Hhi Hlt. unfold func.
  destruct (Np.min grid) as [lo |] eqn:Hlo; [| destruct grid; discriminate].
  simpl. pose proof (min_le_max grid lo hi Hlo Hhi) as Hle.
  rewrite (proj2 (Qltb_false o_f lo)) by (apply Qlt_le_weak; eapply Qle_lt_trans; eassumption).
  rewrite Hhi. simpl. now rewrite (proj2 (Qltb_true hi o_f) Hlt).
Qed.

Lemma func_inrange_reached (grid : list Q) (s : surface) (strat : strategy)
    (o_f P lo hi : Q) :
  Np.min grid = Ok lo -> Np.max grid = Ok hi -> lo <= o_f -> o_f <= hi ->
  func grid s strat o_f P = Ok (PyFloat (s o_f (P * 1.0e-6))).
Proof.
  intros Hlo Hhi H1 H2. unfold func. rewrite Hlo. simpl.
  rewrite (proj2 (Qltb_false o_f lo) H1). rewrite Hhi. simpl.
  rewrite (proj2 (Qltb_false hi o_f) H2). reflexivity.
Qed.

Lemma func_at_grid_point (grid : list Q) (s : surface) (strat : strategy)
    (P : Q) (i : nat) :
  (i < List.length grid)%nat ->
  func grid s strat (nth i grid 0) P = Ok (PyFloat (s (nth i grid 0) (P * 1.0e-6))).
Proof.
  intros Hi. pose proof (nth_In grid 0 Hi) as Hin.
  destruct grid as [| h r]; [destruct Hin |].
  destruct (Np.min (h :: r)) as [lo |] eqn:Hlo; [| discriminate].
  destruct (Np.max (h :: r)) as [hi |] eqn:Hhi; [| discriminate].
  apply (func_inrange_reached _ _ _ _ _ lo hi Hlo Hhi).
  - now apply (min_is_lower_bound _ _ Hlo).
  - now apply (max_is_upper_bound _ _ Hhi).
Qed.

Lemma dispatch_linear (o_f p a b diff : Q) :
  dispatch (SName "linear") o_f p a b diff
  = Ok (PyFloat (extrapfunc_linear o_f a b diff)).
Proof. reflexivity. Qed.

Lemma dispatch_other_name (name : string) (o_f p a b diff : Q) :
  name <> "linear"%string ->
  dispatch (SName name) o_f p a b diff = Err UnboundLocalError.
Proof.
  intros Hn. unfold dispatch. simpl.
  destruct (String.eqb name "linear") eqn:E; [| reflexivity].
  apply String.eqb_eq in E. contradiction.
Qed.

(** With three samples or more, both out-of-range branches get as far as
    the strategy dispatch. *)
Lemma func_below_dispatch (grid : list Q) (s : surface) (strat : strategy)
    (o_f p lo : Q) :
  (3 <= List.length grid)%nat -> Np.sort grid = grid -> Np.min grid = Ok lo ->
  let x := fun i => nth i grid 0 in
  func_below grid (interp2d_call s grid p) strat o_f p
  = dispatch strat o_f p lo (s (x 0%nat) p)
      ((-3 * s (x 0%nat) p + 4 * s (x 1%nat) p - s (x 2%nat) p)
       / (2 * (x 1%nat - x 0%nat))).
Proof.
  intros Hn Hs Hlo x. unfold func_below, interp2d_call. rewrite Hs.
  set (ca := map (fun xi => s xi p) grid).
  assert (Hca : Np.len ca = Np.len grid) by (unfold Np.len, ca; now rewrite length_map).
  assert (Hg : (3 <= Np.len grid)%Z) by (unfold Np.len; lia).
  rewrite (getitem_nonneg ca 0 (s 0 p)) by lia.
  rewrite (getitem_nonneg ca 1 (s 0 p)) by lia.
  rewrite (getitem_nonneg ca 2 (s 0 p)) by lia.
  rewrite (getitem_nonneg grid 1 0) by lia.
  rewrite (getitem_nonneg grid 0 0) by lia.
  rewrite Hlo. cbn [bind]. unfold ca. rewrite !sample_nth. reflexivity.
Qed.

Lemma func_above_dispatch (grid : list Q) (s : surface) (strat : strategy)
    (o_f p hi : Q) :
  (3 <= List.length grid)%nat -> Np.sort grid = grid -> Np.max grid = Ok hi ->
  let n := List.length grid in
  let x := fun i => nth i grid 0 in
  func_above grid (interp2d_call s grid p) strat o_f p
  = dispatch strat o_f p hi (s (x (n - 1)%nat) p)
      ((s (x (n - 3)%nat) p - 4 * s (x (n - 2)%nat) p + 3 * s (x (n - 1)%nat) p)
       / (2 * (x (n - 1)%nat - x (n - 2)%nat))).
Proof.
  intros Hn Hs Hhi n x. unfold func_above, interp2d_call. rewrite Hs.
  set (ca := map (fun xi => s xi p) grid).
  assert (Hca : List.length ca = n) by (unfold ca; now rewrite length_map).
  change (Np.len ca - 3)%Z with (Np.len ca - Z.of_nat 3)%Z.
  change (Np.len ca - 2)%Z with (Np.len ca - Z.of_nat 2)%Z.
  change (Np.len ca - 1)%Z with (Np.len ca - Z.of_nat 1)%Z.
  change (Np.len grid - 2)%Z with (Np.len grid - Z.of_nat 2)%Z.
  change (Np.len grid - 1)%Z with (Np.len grid - Z.of_nat 1)%Z.
  rewrite (getitem_from_end ca 3 (s 0 p)) by lia.
  rewrite (getitem_from_end ca 2 (s 0 p)) by lia.
  rewrite (getitem_from_end ca 1 (s 0 p)) by lia.
  rewrite (getitem_from_end grid 1 0) by lia.
  rewrite (getitem_from_end grid 2 0) by lia.
  rewrite Hhi. cbn [bind]. rewrite Hca. unfold ca. rewrite !sample_nth. reflexivity.
Qed.

Section WithLoader.

Variable fs : filesystem.
Variable interp2d : list Q -> list Q -> list (list Q) -> result surface.

Lemma gen_func_inv (self : Read_datset) (param_name : string)
    (strat : strategy) (f : Q -> Q -> result pyval) :
  gen_func fs interp2d self param_name strat = Ok f ->
  exists array grid pcs s,
    _read_csv_ fs self param_name = Ok array
    /\ of_ self = Some grid /\ Pc self = Some pcs
    /\ interp2d grid pcs (Np.T array) = Ok s
    /\ f = func grid s strat.
Proof.
  unfold gen_func. intros H.
  apply bind_Ok_inv in H as [array [Ha H]].
  apply bind_Ok_inv in H as [grid [Hg H]].
  apply bind_Ok_inv in H as [pcs [Hp H]].
  apply bind_Ok_inv in H as [s [Hs H]].
  exists array, grid, pcs, s.
  destruct (of_ self) as [g |]; [| discriminate].
  destruct (Pc self) as [q |]; [| discriminate].
  simpl in Hg, Hp. injection Hg as ->. injection Hp as ->.
  injection H as <-. repeat split; assumption.
Qed.

End WithLoader.

End EngineFacts.

Section ShortGrids.

Import CeaPost.

(** Below the range, fewer than three samples: the slope cannot be read. *)
Lemma func_below_short (grid ca : list Q) (strat : strategy) (o_f p : Q) :
  List.length ca = List.length grid ->
  (1 <= List.length grid < 3)%nat ->
  func_below grid ca strat o_f p = Err IndexError.
Proof.
  intros Hca Hn. unfold func_below.
  assert (Hlen : Np.len ca = Z.of_nat (List.length grid))
    by (unfold Np.len; now rewrite Hca).
  rewrite (getitem_nonneg ca 0 0) by lia. cbn [bind].
  destruct (Nat.eq_dec (List.length grid) 1) as [E | E].
  - rewrite (getitem_out_of_range ca 1) by lia. reflexivity.
  - rewrite (getitem_nonneg ca 1 0) by lia. cbn [bind].
    rewrite (getitem_out_of_range ca 2) by lia. reflexivity.
Qed.

(** Above the range, a single sample: index [len - 3 = -2] does not exist. *)
Lemma func_above_single (grid ca : list Q) (strat : strategy) (o_f p : Q) :
  List.length ca = List.length grid ->
  List.length grid = 1%nat ->
  func_above grid ca strat o_f p = Err IndexError.
Proof.
  intros Hca Hn. unfold func_above.
  assert (Hlen : Np.len ca = 1%Z) by (unfold Np.len; rewrite Hca, Hn; reflexivity).
  rewrite (getitem_out_of_range ca (Np.len ca - 3)) by lia. reflexivity.
Qed.

(** Above the range, two samples or more: every index exists (with two
    samples, [len - 3 = -1] wraps around to the last one), so the strategy
    dispatch is reached. *)
Lemma func_above_reaches_dispatch (grid ca : list Q) (strat : strategy)
    (o_f p hi : Q) :
  List.length ca = List.length grid ->
  (2 <= List.length grid)%nat ->
  Np.max grid = Ok hi ->
  exists b diff, func_above grid ca strat o_f p = dispatch strat o_f p hi b diff.
Proof.
  intros Hca Hn Hhi. unfold func_above.
  assert (Hlen : Np.len ca = Z.of_nat (List.length grid))
    by (unfold Np.len; now rewrite Hca).
  assert (Hg : Np.len grid = Z.of_nat (List.length grid)) by reflexivity.
  rewrite (getitem_in_range ca (Np.len ca - 3) 0) by lia. cbn [bind].
  rewrite (getitem_in_range ca (Np.len ca - 2) 0) by lia. cbn [bind].
  rewrite (getitem_in_range ca (Np.len ca - 1) 0) by lia. cbn [bind].
  rewrite (getitem_in_range grid (Np.len grid - 1) 0) by lia. cbn [bind].
  rewrite (getitem_in_range grid (Np.len grid - 2) 0) by lia. cbn [bind].
  rewrite Hhi. cbn [bind]. eexists. eexists. reflexivity.
Qed.

Lemma func_below_reaches_dispatch (grid ca : list Q) (strat : strategy)
    (o_f p lo : Q) :
  List.length ca = List.length grid ->
  (3 <= List.length grid)%nat ->
  Np.min grid = Ok lo ->
  exists b diff, func_below grid ca strat o_f p = dispatch strat o_f p lo b diff.
Proof.
  intros Hca Hn Hlo. unfold func_below.
  assert (Hlen : Np.len ca = Z.of_nat (List.length grid))
    by (unfold Np.len; now rewrite Hca).
  assert (Hg : Np.len grid = Z.of_nat (List.length grid)) by reflexivity.
  rewrite (getitem_nonneg ca 0 0) by lia. cbn [bind].
  rewrite (getitem_nonneg ca 1 0) by lia. cbn [bind].
  rewrite (getitem_nonneg ca 2 0) by lia. cbn [bind].
  rewrite (getitem_nonneg grid 1 0) by lia. cbn [bind].
  rewrite (getitem_nonneg grid 0 0) by lia. cbn [bind].
  rewrite Hlo. cbn [bind]. eexists. eexists. reflexivity.
Qed.

Lemma min_Ok_nonempty (grid : list Q) (lo : Q) :
  Np.min grid = Ok lo -> (1 <= List.length grid)%nat.
Proof. destruct grid; [discriminate | simpl; lia]. Qed.


End ShortGrids.

Section EngineClaims.

Import CeaPost.

Variable fs : filesystem.
Variable interp2d : list Q -> list Q -> list (list Q) -> result surface.

(** C4: on a grid of at least three strictly increasing mixture ratios
    [x 0 < x 1 < ...], the function built with the "linear" strategy
    returns, below [of.min() = x 0], the line through the in-range value at
    [x 0] whose slope is the three-point one-sided difference of the
    in-range values at [x 0, x 1, x 2]; above [of.max()], the mirror line
    through the value at the last point with the slope from the last three. *)
Theorem linear_extrapolation_formula :
  forall (self : Read_datset) (param_name : string)
         (f : Q -> Q -> result pyval) (grid : list Q) (o_f P : Q),
    gen_func fs interp2d self param_name (SName "linear") = Ok f ->
    of_ self = Some grid ->
    StronglySorted Qlt grid ->
    (3 <= List.length grid)%nat ->
    let n := List.length grid in
    let x := fun i : nat => nth i grid 0 in
    exists v : nat -> Q,
      (forall i, (i < n)%nat -> f (x i) P = Ok (PyFloat (v i)))
      /\ Np.min grid = Ok (x 0%nat)
      /\ Np.max grid = Ok (x (n - 1)%nat)
      /\ (o_f < x 0%nat ->
          f o_f P
          = Ok (PyFloat (three_point_begin (v 0%nat) (v 1%nat) (v 2%nat)
                                           (x 1%nat - x 0%nat)
                         * (o_f - x 0%nat) + v 0%nat)))
      /\ (x (n - 1)%nat < o_f ->
          f o_f P
          = Ok (PyFloat (three_point_end (v (n - 3)%nat) (v (n - 2)%nat) (v (n - 1)%nat)
                                         (x (n - 1)%nat - x (n - 2)%nat)
                         * (o_f - x (n - 1)%nat) + v (n - 1)%nat))).
Proof.
  intros self param_name f grid o_f P Hf Hgrid Hsorted Hn n x.
  destruct (gen_func_inv fs interp2d _ _ _ _ Hf)
    as [array [grid' [pcs [s [_ [Hg' [_ [_ ->]]]]]]]].
  rewrite Hgrid in Hg'. injection Hg' as <-.
  assert (Hlo : Np.min grid = Ok (x 0%nat)).
  { destruct grid as [| h r]; [simpl in Hn; lia |]. now apply min_increasing. }
  assert (Hhi : Np.max grid = Ok (x (n - 1)%nat)).
  { apply max_increasing; [assumption | destruct grid; [simpl in Hn; lia | congruence]]. }
  exists (fun i => s (x i) (P * 1.0e-6)).
  split; [| split; [exact Hlo | split; [exact Hhi | split]]].
  - intros i Hi. now apply func_at_grid_point.
  - intros Hlt. rewrite (func_below_reached _ _ _ _ _ _ Hlo Hlt).
    rewrite (func_below_dispatch grid s _ o_f _ _ Hn (sort_increasing _ Hsorted) Hlo).
    reflexivity.
  - intros Hlt. rewrite (func_above_reached _ _ _ _ _ _ Hhi Hlt).
    rewrite (func_above_dispatch grid s _ o_f _ _ Hn (sort_increasing _ Hsorted) Hhi).
    reflexivity.
Qed.

(** C10: for a strategy name other than "linear", an evaluation outside
    the grid's mixture-ratio range never returns a value; on a grid of at
    least three points (which the slope needs) it reaches the end of the
    dispatch with [val] unassigned and fails with [UnboundLocalError]. *)
Theorem other_strategy_names_leave_val_unbound :
  forall (self : Read_datset) (param_name name : string)
         (f : Q -> Q -> result pyval) (grid : list Q) (o_f P lo hi : Q),
    name <> "linear"%string ->
    gen_func fs interp2d self param_name (SName name) = Ok f ->
    of_ self = Some grid ->
    Np.min grid = Ok lo ->
    Np.max grid = Ok hi ->
    o_f < lo \/ hi < o_f ->
    (exists e, f o_f P = Err e)
    /\ ((3 <= List.length grid)%nat -> f o_f P = Err UnboundLocalError).
Proof.
  intros self param_name name f grid o_f P lo hi Hname Hf Hgrid Hlo Hhi Hout.
  destruct (gen_func_inv fs interp2d _ _ _ _ Hf)
    as [array [grid' [pcs [s [_ [Hg' [_ [_ ->]]]]]]]].
  rewrite Hgrid in Hg'. injection Hg' as <-.
  pose proof (interp2d_call_length s grid (P * 1.0e-6)) as Hca.
  pose proof (min_Ok_nonempty _ _ Hlo) as Hne.
  destruct Hout as [Hlt | Hlt].
  - rewrite (func_below_reached _ _ _ _ _ _ Hlo Hlt).
    destruct (le_lt_dec 3 (List.length grid)) as [H3 | H3].
    + destruct (func_below_reaches_dispatch grid _ (SName name) o_f (P * 1.0e-6) lo Hca H3 Hlo)
        as [b [diff ->]].
      rewrite (dispatch_other_name _ _ _ _ _ _ Hname).
      split; [eexists; reflexivity | reflexivity].
    + rewrite (func_below_short grid _ (SName name) o_f (P * 1.0e-6) Hca) by lia.
      split; [eexists; reflexivity | intros; lia].
  - rewrite (func_above_reached _ _ _ _ _ _ Hhi Hlt).
    destruct (le_lt_dec 2 (List.length grid)) as [H2 | H2].
    + destruct (func_above_reaches_dispatch grid _ (SName name) o_f (P * 1.0e-6) hi Hca H2 Hhi)
        as [b [diff ->]].
      rewrite (dispatch_other_name _ _ _ _ _ _ Hname).
      split; [eexists; reflexivity | reflexivity].
    + rewrite (func_above_single grid _ (SName name) o_f (P * 1.0e-6) Hca) by lia.
      split; [eexists; reflexivity | intros; lia].
Qed.


End EngineClaims.

Section BoundaryAndNodes.

Import CeaPost.

Variable fs : filesystem.
Variable interp2d : list Q -> list Q -> list (list Q) -> result surface.

Lemma func_inrange_value (s : surface) (o_f p : Q) :
  func_inrange s o_f p = Ok (PyFloat (s o_f p)).
Proof. reflexivity. Qed.

(** C5: on a grid of at least three strictly increasing mixture ratios,
    the linear-extrapolation branch run at exactly [of.min()] returns the
    value of the in-range branch there, and likewise at [of.max()]. *)
Theorem extrapolation_meets_inrange_at_boundary :
  forall (self : Read_datset) (param_name : string)
         (f : Q -> Q -> result pyval) (grid : list Q) (P : Q),
    gen_func fs interp2d self param_name (SName "linear") = Ok f ->
    of_ self = Some grid ->
    StronglySorted Qlt grid ->
    (3 <= List.length grid)%nat ->
    let p := P * 1.0e-6 in
    exists (s : surface) (lo hi v_lo w_lo v_hi w_hi : Q),
      f = func grid s (SName "linear")
      /\ Np.min grid = Ok lo /\ Np.max grid = Ok hi
      /\ func_below grid (interp2d_call s grid p) (SName "linear") lo p = Ok (PyFloat v_lo)
      /\ func_inrange s lo p = Ok (PyFloat w_lo)
      /\ v_lo == w_lo
      /\ func_above grid (interp2d_call s grid p) (SName "linear") hi p = Ok (PyFloat v_hi)
      /\ func_inrange s hi p = Ok (PyFloat w_hi)
      /\ v_hi == w_hi.
Proof.
  intros self param_name f grid P Hf Hgrid Hsorted Hn p.
  destruct (gen_func_inv fs interp2d _ _ _ _ Hf)
    as [array [grid' [pcs [s [_ [Hg' [_ [_ ->]]]]]]]].
  rewrite Hgrid in Hg'. injection Hg' as <-.
  assert (Hlo : Np.min grid = Ok (nth 0 grid 0)).
  { destruct grid as [| h r]; [simpl in Hn; lia |]. now apply min_increasing. }
  assert (Hhi : Np.max grid = Ok (nth (List.length grid - 1) grid 0)).
  { apply max_increasing; [assumption | destruct grid; [simpl in Hn; lia | congruence]]. }
  pose proof (func_below_dispatch grid s (SName "linear") (nth 0 grid 0) p _ Hn
                (sort_increasing _ Hsorted) Hlo) as Hb.
  pose proof (func_above_dispatch grid s (SName "linear")
                (nth (List.length grid - 1) grid 0) p _ Hn
                (sort_increasing _ Hsorted) Hhi) as Ha.
  cbv zeta in Hb, Ha. rewrite dispatch_linear in Hb, Ha.
  eexists s, (nth 0 grid 0), (nth (List.length grid - 1) grid 0), _, _, _, _.
  split; [reflexivity |]. split; [exact Hlo |]. split; [exact Hhi |].
  split; [exact Hb |]. split; [apply func_inrange_value |].
  split; [unfold extrapfunc_linear; ring |].
  split; [exact Ha |]. split; [apply func_inrange_value |].
  unfold extrapfunc_linear. ring.
Qed.

(** An in-range evaluation at a grid mixture ratio is the value of the
    fitted surface there, at the pressure converted from Pa to the table's
    MPa. The surface is the one fitted to the reader's labels and to the
    transposed table body, whose entry [j][i] is the table's entry [i][j]. *)
Lemma node_evaluation_reads_the_fitted_surface :
  forall (self : Read_datset) (param_name : string) (strat : strategy)
         (f : Q -> Q -> result pyval) (frame : csv_frame),
    gen_func fs interp2d self param_name strat = Ok f ->
    read_csv fs (fpath_of self param_name) = Ok frame ->
    of_ self = Some (frame_index frame) ->
    Pc self = Some (frame_columns frame) ->
    exists s : surface,
      interp2d (frame_index frame) (frame_columns frame) (Np.T (frame_values frame)) = Ok s
      /\ (forall (i : nat) (P : Q),
            (i < List.length (frame_index frame))%nat ->
            f (nth i (frame_index frame) 0) P
            = Ok (PyFloat (s (nth i (frame_index frame) 0) (P * 1.0e-6))))
      /\ (forall i j : nat,
            (j < Np.ncols (frame_values frame))%nat ->
            nth i (nth j (Np.T (frame_values frame)) []) 0
            = nth j (nth i (frame_values frame) []) 0).
Proof.
  intros self param_name strat f frame Hf Hread Hof HPc.
  destruct (gen_func_inv fs interp2d _ _ _ _ Hf)
    as [array [grid [pcs [s [Harr [Hg [Hp [Hs ->]]]]]]]].
  rewrite Hof in Hg. injection Hg as <-.
  rewrite HPc in Hp. injection Hp as <-.
  unfold _read_csv_ in Harr.
  destruct (path_exists fs (fpath_of self param_name)); [| discriminate].
  rewrite Hread in Harr. simpl in Harr. injection Harr as <-.
  exists s. split; [exact Hs |]. split.
  - intros i P Hi. now apply func_at_grid_point.
  - intros i j Hj. now apply T_nth.
Qed.

(** C9, as the code has it: when the table file of the requested name
    does not exist, [_read_csv_] raises [SystemExit(1)], and [gen_func]
    lets it through; when it exists and parses, [_read_csv_] returns the
    table body, and only the body. The row index (of) and the column
    index (pc) are those that [__init__] parsed from the first listed table
    of the folder. *)
Theorem load_missing_exits_present_returns_body :
  forall (self : Read_datset) (param_name : string),
    (path_exists fs (fpath_of self param_name) = false ->
       _read_csv_ fs self param_name = Err (SystemExit 1)
       /\ (forall strat, gen_func fs interp2d self param_name strat = Err (SystemExit 1))
       /\ grid_of fs self param_name = Err (SystemExit 1))
    /\ (forall frame,
          path_exists fs (fpath_of self param_name) = true ->
          read_csv fs (fpath_of self param_name) = Ok frame ->
          _read_csv_ fs self param_name = Ok (frame_values frame))
    /\ (forall fld ext,
          path_exists fs fld = true ->
          init fs fld ext = Ok self ->
          exists f0 frame0,
            Np.getitem (get_flist fs fld ext) 0 = Ok f0
            /\ read_csv fs (path_join fld (f0 ++ "." ++ ext)) = Ok frame0
            /\ of_ self = Some (frame_index frame0)
            /\ Pc self = Some (frame_columns frame0)).
Proof.
  intros self param_name. split; [| split].
  - intros Hmiss.
    assert (E : _read_csv_ fs self param_name = Err (SystemExit 1))
      by (unfold _read_csv_; now rewrite Hmiss).
    split; [exact E |]. split.
    + intros strat. unfold gen_func. now rewrite E.
    + unfold grid_of. now rewrite E.
  - intros frame Hex Hread. unfold _read_csv_. rewrite Hex, Hread. reflexivity.
  - intros fld ext Hex Hinit. unfold init in Hinit. rewrite Hex in Hinit.
    apply bind_Ok_inv in Hinit as [f0 [Hf0 Hinit]].
    apply bind_Ok_inv in Hinit as [frame0 [Hfr Hinit]].
    injection Hinit as <-. exists f0, frame0. repeat split; assumption.
Qed.

End BoundaryAndNodes.

(** * Concrete runs *)

Section Runs.

Import Instances.
Import CeaPost.
Import DesignEBHR.

Lemma grid_1234_increasing : StronglySorted Qlt [1; 2; 3; 4].
Proof. repeat (constructor; try reflexivity). Qed.

Example readers_are_constructed :
  CeaPost.init db_fs "db" "csv" = Ok db_reader
  /\ CeaPost.init db_fs "mixed" "csv" = Ok mixed_reader
  /\ CeaPost.init db_fs "short" "csv" = Ok short_reader.
Proof. repeat split; reflexivity. Qed.

Example cstar_function_is_built :
  gen_func db_fs interp2d_poly db_reader "CSTAR" (SName "linear")
  = Ok (func [1; 2; 3; 4] cstar_surface (SName "linear")).
Proof. reflexivity. Qed.

(** C1: in the sweep over 1, 2 g/s and 1, 2 mm the cell (2 g/s, 1 mm)
    fails in both root finders while the other three converge; the sweep
    returns no table at all, only that cell's error. *)
Lemma sweep_with_one_failed_cell_yields_no_table :
  (exists p, converge_Pc const_cstr_db newton_secant brentq_bisect
               sweep_motor 0.001 0.001 1.0e+6 = Ok p)
  /\ (exists p, converge_Pc const_cstr_db newton_secant brentq_bisect
                  sweep_motor 0.001 0.002 1.0e+6 = Ok p)
  /\ (exists p, converge_Pc const_cstr_db newton_secant brentq_bisect
                  sweep_motor 0.002 0.002 1.0e+6 = Ok p)
  /\ converge_Pc const_cstr_db newton_secant brentq_bisect
       sweep_motor 0.002 0.001 1.0e+6 = Err ValueError
  /\ gen_table const_cstr_db newton_secant brentq_bisect sweep_motor = Err ValueError.
Proof.
  split; [eexists; vm_compute; reflexivity |].
  split; [eexists; vm_compute; reflexivity |].
  split; [eexists; vm_compute; reflexivity |].
  split; vm_compute; reflexivity.
Qed.

Lemma full_motor_cells_converge :
  forall mox Dt, In mox (mox_range full_motor) -> In Dt (Dt_range full_motor) ->
    exists p, converge_Pc const_cstr_db newton_secant brentq_bisect
                full_motor mox Dt 1.0e+6 = Ok p.
Proof.
  intros mox Dt [<- | [<- | []]] [<- | [<- | []]];
    eexists; vm_compute; reflexivity.
Qed.

Lemma full_motor_diameters_distinct : NoDupA Qeq (Dt_range full_motor).
Proof.
  constructor.
  - intros H. inversion H as [? ? E | ? ? E]; subst; [discriminate E | inversion E].
  - constructor; [intros H; inversion H | constructor].
Qed.

Lemma gen_table_all_or_nothing_witness :
  (converge_Pc const_cstr_db newton_secant brentq_bisect
     sweep_motor 0.002 0.001 1.0e+6 = Err ValueError
   /\ exists e, gen_table const_cstr_db newton_secant brentq_bisect sweep_motor = Err e)
  /\ exists df,
       gen_table const_cstr_db newton_secant brentq_bisect full_motor = Ok df
       /\ index df = [0.01; 0.02]
       /\ forall Dt, In Dt [0.005; 0.007] ->
            exists col,
              get_column (columns df) Dt = Some col
              /\ Forall2 (fun mox p =>
                            converge_Pc const_cstr_db newton_secant brentq_bisect
                              full_motor mox Dt 1.0e+6 = Ok p)
                         [0.01; 0.02] col.
Proof.
  split.
  - assert (H : converge_Pc const_cstr_db newton_secant brentq_bisect
                  sweep_motor 0.002 0.001 1.0e+6 = Err ValueError)
      by (vm_compute; reflexivity).
    split; [exact H |].
    apply (proj2 (gen_table_all_or_nothing const_cstr_db newton_secant brentq_bisect
                    sweep_motor) 0.002 0.001 ValueError).
    + simpl. right. left. reflexivity.
    + simpl. left. reflexivity.
    + exact H.
  - exact (proj1 (gen_table_all_or_nothing const_cstr_db newton_secant brentq_bisect
                    full_motor) full_motor_cells_converge full_motor_diameters_distinct).
Defined.

(** The table of the converging sweep: about 0.69 and 1.38 MPa at 5 mm,
    0.35 and 0.70 MPa at 7 mm. *)
Example full_motor_table :
  gen_table const_cstr_db newton_secant brentq_bisect full_motor
  = Ok {| index := [0.01; 0.02];
          columns := [(0.005, [137528432281 # 200000; 1375470.063839]);
                      (0.007, [350799.64999; 701617.628593])] |}.
Proof. vm_compute. reflexivity. Qed.

Lemma func_Pc_cal_lookup_in_MPa_witness :
  func_Pc_cal 2 1.0e+6 0.01 pressure_sensitive_cstr 0.007 0.9
  = Ok (0.9 * (1000 + 1.0e+6 * 1.0e-6) * 0.01 * (1 + 1 / 2) / (Np.pi * 0.007 ^ 2 / 4)).
Proof.
  apply (func_Pc_cal_lookup_in_MPa 2 1.0e+6 0.01 0.007 0.9 pressure_sensitive_cstr
           [1000 + 1.0e+6 * 1.0e-6] (1000 + 1.0e+6 * 1.0e-6)); reflexivity.
Defined.

(** C2: with a characteristic velocity that depends on the pressure, the
    code's result differs from a lookup at [(of, Pc)]. *)
Lemma func_Pc_cal_is_not_a_lookup_at_Pc :
  exists v w,
    func_Pc_cal 2 1.0e+6 0.01 pressure_sensitive_cstr 0.007 0.9 = Ok v
    /\ predictedChamberPressure_at_of_Pc 2 1.0e+6 0.01 pressure_sensitive_cstr 0.007 0.9
       = Ok w
    /\ ~ v == w.
Proof.
  eexists. eexists. split; [reflexivity |]. split; [reflexivity |].
  apply Qeq_bool_neq. vm_compute. reflexivity.
Qed.

Lemma newton_failure_falls_back_to_brent_witness :
  newton_secant (fun Pc => _iterat_func_Pc_ const_cstr_db single_motor Pc 0.01 0.007)
                2e7 10 1.0e-3 = Err RuntimeError
  /\ converge_Pc const_cstr_db newton_secant brentq_bisect single_motor 0.01 0.007 2e7
     = brentq_bisect (fun Pc => _iterat_func_Pc_ const_cstr_db single_motor Pc 0.01 0.007)
                     1.0e+4 10e+6 50 1.0e-3.
Proof.
  assert (H : newton_secant
                (fun Pc => _iterat_func_Pc_ const_cstr_db single_motor Pc 0.01 0.007)
                2e7 10 1.0e-3 = Err RuntimeError) by (vm_compute; reflexivity).
  split; [exact H |].
  exact (proj1 (newton_failure_falls_back_to_brent const_cstr_db newton_secant
                  brentq_bisect single_motor 0.01 0.007 2e7 RuntimeError H)).
Defined.

(** The fallback of the run above converges, near 0.35 MPa. *)
Example brent_fallback_converges :
  exists p,
    converge_Pc const_cstr_db newton_secant brentq_bisect single_motor 0.01 0.007 2e7 = Ok p
    /\ 350799 < p < 350800.
Proof.
  eexists. split; [vm_compute; reflexivity |]. split; reflexivity.
Qed.

Lemma residual_is_relative_difference_witness :
  exists Pc_cal,
    func_Pc_cal
      (func_of (func_Vox 1.0e+6 0.01 (Rm single_motor) (Tox single_motor)
                         (Df single_motor) (a single_motor))
               (func_Vf (func_Vox 1.0e+6 0.01 (Rm single_motor) (Tox single_motor)
                                  (Df single_motor) (a single_motor))
                        1.0e+6 (C1 single_motor) (C2 single_motor) 1)
               (rho_f single_motor) (Df single_motor) (a single_motor))
      1.0e+6 0.01 (fun _ _ => Ok [1500]) 0.007 (eta single_motor) = Ok Pc_cal
    /\ _iterat_func_Pc_ const_cstr_db single_motor 1.0e+6 0.01 0.007
       = Ok ((Pc_cal - 1.0e+6) / Pc_cal).
Proof.
  eexists. split; [reflexivity |].
  apply (residual_is_relative_difference const_cstr_db single_motor 1.0e+6 0.01 0.007
           (fun _ _ => Ok [1500])); reflexivity.
Defined.

(** C7: at Pc = 1 MPa, 10 g/s and 7 mm the residual is about -1.85, the
    difference of the pressures about -649 kPa. *)
Lemma residual_is_not_the_absolute_difference :
  exists r Pc_cal,
    _iterat_func_Pc_ const_cstr_db single_motor 1.0e+6 0.01 0.007 = Ok r
    /\ r == (Pc_cal - 1.0e+6) / Pc_cal
    /\ -2 < r < -1
    /\ Pc_cal - 1.0e+6 < -600000
    /\ ~ r == Pc_cal - 1.0e+6.
Proof.
  eexists. eexists. split; [reflexivity |].
  split; [reflexivity |].
  split; [split; vm_compute; reflexivity |].
  split; [vm_compute; reflexivity |].
  apply Qeq_bool_neq. vm_compute. reflexivity.
Qed.

End Runs.

Section EngineRuns.

Import Instances.
Import CeaPost.

Lemma linear_extrapolation_formula_witness :
  exists v0 v1 v2 v3 : Q,
    func [1; 2; 3; 4] cstar_surface (SName "linear") 1 3.0e+6 = Ok (PyFloat v0)
    /\ func [1; 2; 3; 4] cstar_surface (SName "linear") 2 3.0e+6 = Ok (PyFloat v1)
    /\ func [1; 2; 3; 4] cstar_surface (SName "linear") 3 3.0e+6 = Ok (PyFloat v2)
    /\ func [1; 2; 3; 4] cstar_surface (SName "linear") 4 3.0e+6 = Ok (PyFloat v3)
    /\ func [1; 2; 3; 4] cstar_surface (SName "linear") 0.5 3.0e+6
       = Ok (PyFloat (three_point_begin v0 v1 v2 (2 - 1) * (0.5 - 1) + v0))
    /\ func [1; 2; 3; 4] cstar_surface (SName "linear") 5 3.0e+6
       = Ok (PyFloat (three_point_end v1 v2 v3 (4 - 3) * (5 - 4) + v3)).
Proof.
  destruct (linear_extrapolation_formula db_fs interp2d_poly db_reader "CSTAR"
              (func [1; 2; 3; 4] cstar_surface (SName "linear")) [1; 2; 3; 4] 0.5 3.0e+6
              eq_refl eq_refl grid_1234_increasing (le_S _ _ (le_n 3)))
    as [v [Hv [_ [_ [Hbelow _]]]]].
  destruct (linear_extrapolation_formula db_fs interp2d_poly db_reader "CSTAR"
              (func [1; 2; 3; 4] cstar_surface (SName "linear")) [1; 2; 3; 4] 5 3.0e+6
              eq_refl eq_refl grid_1234_increasing (le_S _ _ (le_n 3)))
    as [w [Hw [_ [_ [_ Habove]]]]].
  assert (E : forall i, (i < 4)%nat -> w i = v i).
  { intros i Hi. specialize (Hv i Hi). specialize (Hw i Hi).
    rewrite Hv in Hw. now injection Hw. }
  exists (v 0%nat), (v 1%nat), (v 2%nat), (v 3%nat).
  split; [apply (Hv 0%nat); simpl; lia |].
  split; [apply (Hv 1%nat); simpl; lia |].
  split; [apply (Hv 2%nat); simpl; lia |].
  split; [apply (Hv 3%nat); simpl; lia |].
  split; [apply Hbelow; reflexivity |].
  rewrite <- (E 1%nat), <- (E 2%nat), <- (E 3%nat) by lia.
  apply Habove. reflexivity.
Defined.

(** The two extrapolated values of the run above. *)
Example linear_extrapolation_values :
  exists lo_val hi_val,
    func [1; 2; 3; 4] cstar_surface (SName "linear") 0.5 3.0e+6 = Ok (PyFloat lo_val)
    /\ lo_val == 1361
    /\ func [1; 2; 3; 4] cstar_surface (SName "linear") 5 3.0e+6 = Ok (PyFloat hi_val)
    /\ hi_val == 1512.
Proof.
  eexists. eexists. split; [vm_compute; reflexivity |].
  split; [reflexivity |]. split; [vm_compute; reflexivity |]. reflexivity.
Qed.

Lemma extrapolation_meets_inrange_at_boundary_witness :
  exists (s : surface) (lo hi v_lo w_lo v_hi w_hi : Q),
    func [1; 2; 3; 4] cstar_surface (SName "linear") = func [1; 2; 3; 4] s (SName "linear")
    /\ Np.min [1; 2; 3; 4] = Ok lo /\ Np.max [1; 2; 3; 4] = Ok hi
    /\ func_below [1; 2; 3; 4] (interp2d_call s [1; 2; 3; 4] (3.0e+6 * 1.0e-6))
                  (SName "linear") lo (3.0e+6 * 1.0e-6) = Ok (PyFloat v_lo)
    /\ func_inrange s lo (3.0e+6 * 1.0e-6) = Ok (PyFloat w_lo)
    /\ v_lo == w_lo
    /\ func_above [1; 2; 3; 4] (interp2d_call s [1; 2; 3; 4] (3.0e+6 * 1.0e-6))
                  (SName "linear") hi (3.0e+6 * 1.0e-6) = Ok (PyFloat v_hi)
    /\ func_inrange s hi (3.0e+6 * 1.0e-6) = Ok (PyFloat w_hi)
    /\ v_hi == w_hi.
Proof.
  exact (extrapolation_meets_inrange_at_boundary db_fs interp2d_poly db_reader "CSTAR"
           (func [1; 2; 3; 4] cstar_surface (SName "linear")) [1; 2; 3; 4] 3.0e+6
           eq_refl eq_refl grid_1234_increasing (le_S _ _ (le_n 3))).
Defined.



(** The fixture surface at the table's node (of = 2, pc = 3 MPa), and at a
    pressure below the table's pressure axis, where the evaluation is made
    at the first pressure column. *)
Example fixture_surface_values :
  exists v_node v_low,
    func [1; 2; 3; 4] cstar_surface (SName "linear") 2 3.0e+6 = Ok (PyFloat v_node)
    /\ v_node == 1524
    /\ func [1; 2; 3; 4] cstar_surface (SName "linear") 2 3 = Ok (PyFloat v_low)
    /\ v_low == 1500.
Proof.
  eexists. eexists. split; [vm_compute; reflexivity |].
  split; [reflexivity |]. split; [vm_compute; reflexivity |]. reflexivity.
Qed.

Lemma load_missing_exits_witness :
  _read_csv_ db_fs db_reader "GAMMAs" = Err (SystemExit 1)
  /\ _read_csv_ db_fs db_reader "CSTAR" = Ok (frame_values cstar_frame).
Proof.
  split.
  - exact (proj1 (proj1 (load_missing_exits_present_returns_body db_fs interp2d_poly
                           db_reader "GAMMAs") eq_refl)).
  - exact (proj1 (proj2 (load_missing_exits_present_returns_body db_fs interp2d_poly
                           db_reader "CSTAR")) cstar_frame eq_refl eq_refl).
Defined.

(** C9: in a folder whose first listed table is CSTAR, loading GAMMAs
    succeeds, but the row index that goes with the body is CSTAR's, not
    the one parsed from the GAMMAs table. *)
Lemma loaded_labels_are_those_of_the_first_table :
  CeaPost.init db_fs "mixed" "csv" = Ok mixed_reader
  /\ read_csv db_fs (fpath_of mixed_reader "GAMMAs") = Ok gamma_frame
  /\ _read_csv_ db_fs mixed_reader "GAMMAs" = Ok (frame_values gamma_frame)
  /\ grid_of db_fs mixed_reader "GAMMAs"
     = Ok (frame_index cstar_frame, frame_columns cstar_frame, frame_values gamma_frame)
  /\ grid_of db_fs mixed_reader "GAMMAs"
     <> Ok (frame_index gamma_frame, frame_columns gamma_frame, frame_values gamma_frame).
Proof.
  split; [reflexivity |]. split; [reflexivity |]. split; [reflexivity |].
  split; [reflexivity |]. vm_compute. intros H. discriminate H.
Qed.

Lemma other_strategy_names_leave_val_unbound_witness :
  func [1; 2; 3; 4] cstar_surface (SName "exp") 5 3.0e+6 = Err UnboundLocalError
  /\ func [1; 2; 3; 4] cstar_surface (SName "power") 0.5 3.0e+6 = Err UnboundLocalError.
Proof.
  split.
  - apply (proj2 (other_strategy_names_leave_val_unbound db_fs interp2d_poly db_reader
                    "CSTAR" "exp" (func [1; 2; 3; 4] cstar_surface (SName "exp"))
                    [1; 2; 3; 4] 5 3.0e+6 1 4
                    ltac:(discriminate) eq_refl eq_refl eq_refl eq_refl
                    (or_intror eq_refl))).
    simpl. lia.
  - apply (proj2 (other_strategy_names_leave_val_unbound db_fs interp2d_poly db_reader
                    "CSTAR" "power" (func [1; 2; 3; 4] cstar_surface (SName "power"))
                    [1; 2; 3; 4] 0.5 3.0e+6 1 4
                    ltac:(discriminate) eq_refl eq_refl eq_refl eq_refl
                    (or_introl eq_refl))).
    simpl. lia.
Defined.

End EngineRuns.


(** * Further properties of the loader, the engine and the sweep *)

Section StringFacts.

Local Open Scope string_scope.

Lemma str_app_assoc (a b c : string) : (a ++ b) ++ c = a ++ (b ++ c).
Proof. induction a as [| x a IH]; simpl; [reflexivity | now rewrite IH]. Qed.

Lemma str_app_nil_r (a : string) : a ++ "" = a.
Proof. induction a as [| x a IH]; simpl; [reflexivity | now rewrite IH]. Qed.

Lemma str_app_length (a b : string) :
  String.length (a ++ b) = (String.length a + String.length b)%nat.
Proof. induction a as [| x a IH]; simpl; [reflexivity | now rewrite IH]. Qed.

Lemma prefix_app (old s : string) : String.prefix old (old ++ s) = true.
Proof.
  induction old as [| x old IH]; simpl.
  - now destruct s.
  - destruct (Ascii.ascii_dec x x) as [_ | N]; [exact IH | now destruct N].
Qed.

Lemma prefix_inv (old s : string) :
  String.prefix old s = true -> exists post, s = old ++ post.
Proof.
  revert s. induction old as [| x old IH]; intros s H.
  - exists s. reflexivity.
  - destruct s as [| y s]; simpl in H; [discriminate |].
    destruct (Ascii.ascii_dec x y) as [-> | N]; [| discriminate].
    destruct (IH s H) as [post ->]. exists post. reflexivity.
Qed.

Lemma replace_from_skip (old new p s : string) :
  replace_from old new (String.length p) (p ++ s) = replace_from old new 0 s.
Proof.
  induction p as [| x p IH]; simpl; [| exact IH].
  destruct s; reflexivity.
Qed.

Lemma replace_from_absent (old new s : string) :
  ~ occurs old s -> replace_from old new 0 s = s.
Proof.
  induction s as [| c s IH]; intros Hno; [reflexivity |].
  cbn [replace_from].
  destruct (String.prefix old (String c s)) eqn:E.
  - exfalso. apply Hno. destruct (prefix_inv _ _ E) as [post Hp].
    exists "", post. exact Hp.
  - f_equal. apply IH. intros [pre [post Hp]]. apply Hno.
    exists (String c pre), post. simpl. now rewrite Hp.
Qed.

Lemma str_replace_absent (old new s : string) :
  ~ occurs old s -> str_replace s old new = s.
Proof.
  intros H. unfold str_replace. destruct old; [reflexivity |].
  now apply replace_from_absent.
Qed.

Lemma str_replace_leading (old s : string) :
  str_replace (old ++ s) old "" = str_replace s old "".
Proof.
  unfold str_replace. destruct old as [| x old]; [reflexivity |].
  change (String x old ++ s) with (String x (old ++ s)).
  cbn [replace_from].
  change (String x (old ++ s)) with (String x old ++ s).
  rewrite prefix_app.
  replace (String.length (String x old) - 1)%nat with (String.length old) by (simpl; lia).
  simpl append at 1. apply replace_from_skip.
Qed.

Lemma str_replace_trailing (old s : string) :
  old <> "" -> only_at_end old (s ++ old) ->
  str_replace (s ++ old) old "" = s.
Proof.
  intros Hne Hend. unfold str_replace.
  destruct old as [| x old]; [congruence |]. clear Hne.
  induction s as [| c s IH].
  - change ("" ++ String x old) with (String x old).
    cbn [replace_from].
    pose proof (prefix_app (String x old) "") as Hp. rewrite str_app_nil_r in Hp.
    rewrite Hp.
    replace (String.length (String x old) - 1)%nat with (String.length old) by (simpl; lia).
    pose proof (replace_from_skip (String x old) "" old "") as Hs.
    rewrite str_app_nil_r in Hs. rewrite Hs. reflexivity.
  - change (String c s ++ String x old) with (String c (s ++ String x old)).
    cbn [replace_from].
    destruct (String.prefix (String x old) (String c (s ++ String x old))) eqn:E.
    + exfalso. destruct (prefix_inv _ _ E) as [post Hp].
      assert (Hpost : post = "").
      { apply (Hend "" post). exact Hp. }
      subst post. rewrite str_app_nil_r in Hp.
      apply (f_equal String.length) in Hp. simpl in Hp.
      rewrite str_app_length in Hp. simpl in Hp. lia.
    + f_equal. apply IH. intros pre post Hp.
      apply (Hend (String c pre) post). simpl. now rewrite Hp.
Qed.

Lemma path_join_absolute (a b : string) :
  String.prefix "/" b = true -> path_join a b = b.
Proof. intros H. unfold path_join. now rewrite H. Qed.

Lemma path_join_prefix (a b : string) :
  String.prefix "/" b = false -> path_join a b = path_join a "" ++ b.
Proof.
  intros H. unfold path_join. rewrite H. cbn [String.prefix].
  destruct a as [| x a]; [reflexivity |].
  destruct (String.eqb _ "/").
  - now rewrite str_app_nil_r.
  - rewrite !str_app_assoc. reflexivity.
Qed.

End StringFacts.

Section ListingFacts.

Import CeaPost.
Local Open Scope string_scope.

Variable fs : filesystem.

Lemma strip_listed_path (fld ext name : string) :
  well_named fld ext name ->
  str_replace (str_replace (path_join fld (name ++ "." ++ ext)) (path_join fld "") "")
              ("." ++ ext) ""
  = name.
Proof.
  intros [Hfld Hext].
  assert (E : str_replace (name ++ "." ++ ext) (path_join fld "") "" = name ++ "." ++ ext).
  { destruct Hfld as [-> | Habs]; [reflexivity | now apply str_replace_absent]. }
  destruct (String.prefix "/" (name ++ "." ++ ext)) eqn:Habs.
  - rewrite (path_join_absolute fld _ Habs), E.
    apply str_replace_trailing; [discriminate | exact Hext].
  - rewrite (path_join_prefix fld _ Habs), str_replace_leading, E.
    apply str_replace_trailing; [discriminate | exact Hext].
Qed.

Lemma get_flist_names (fld ext : string) (names : list string) :
  glob fs (path_join fld ("**/*." ++ ext))
  = map (fun n => path_join fld (n ++ "." ++ ext)) names ->
  Forall (well_named fld ext) names ->
  get_flist fs fld ext = names.
Proof.
  intros Hglob Hnames. unfold get_flist. rewrite Hglob, !map_map. clear Hglob.
  induction Hnames as [| n rest Hn _ IH]; cbn [map]; [reflexivity |].
  now rewrite (strip_listed_path fld ext n Hn), IH.
Qed.

(** X5: the names [get_flist] returns address the files that were listed:
    when the listing consists of the files of well-formed names, [get_flist]
    returns exactly those names, and the paths [_read_csv_] builds from them
    are the listed paths. *)
Theorem listed_names_address_listed_files :
  forall (self : Read_datset) (names : list string),
    glob fs (path_join (fld_path self) ("**/*." ++ fexten self))
    = map (fpath_of self) names ->
    Forall (well_named (fld_path self) (fexten self)) names ->
    get_flist fs (fld_path self) (fexten self) = names
    /\ map (fpath_of self) (get_flist fs (fld_path self) (fexten self))
       = glob fs (path_join (fld_path self) ("**/*." ++ fexten self)).
Proof.
  intros self names Hglob Hnames.
  assert (E : get_flist fs (fld_path self) (fexten self) = names)
    by (apply get_flist_names; assumption).
  split; [exact E | now rewrite E, Hglob].
Qed.

(** X6: [__init__] on an existing folder takes the labels of the first
    listed table; a folder in which nothing is listed makes it fail with the
    [IndexError] of [flist[0]]; a table that cannot be read makes it fail
    with the reader's error. *)
Theorem init_takes_labels_of_first_listed_table :
  forall (fld ext : string) (names : list string),
    path_exists fs fld = true ->
    glob fs (path_join fld ("**/*." ++ ext))
    = map (fun n => path_join fld (n ++ "." ++ ext)) names ->
    Forall (well_named fld ext) names ->
    (names = [] -> init fs fld ext = Err IndexError)
    /\ (forall n rest frame,
          names = n :: rest ->
          read_csv fs (path_join fld (n ++ "." ++ ext)) = Ok frame ->
          init fs fld ext
          = Ok {| fld_path := fld; fexten := ext;
                  of_ := Some (frame_index frame);
                  Pc := Some (frame_columns frame) |})
    /\ (forall n rest e,
          names = n :: rest ->
          read_csv fs (path_join fld (n ++ "." ++ ext)) = Err e ->
          init fs fld ext = Err e).
Proof.
  intros fld ext names Hex Hglob Hnames.
  pose proof (get_flist_names fld ext names Hglob Hnames) as E.
  unfold init. rewrite Hex, E.
  split; [| split].
  - intros ->. reflexivity.
  - intros n rest frame -> Hread. cbn [bind]. 
    change (Np.getitem (n :: rest) 0) with (@Ok string n). cbn [bind].
    rewrite Hread. reflexivity.
  - intros n rest e -> Hread.
    change (Np.getitem (n :: rest) 0) with (@Ok string n). cbn [bind].
    rewrite Hread. reflexivity.
Qed.

End ListingFacts.


Section ListingRuns.
Import Instances.
Import CeaPost.
Local Open Scope string_scope.

Ltac scan_occurrences H pre :=
  repeat (destruct pre as [| ? pre]; simpl in H;
          [ first [ discriminate H | repeat (injection H as _ H); congruence ]
          | first [ discriminate H | injection H as _ H ] ]).

Lemma CSTAR_is_well_named : well_named "db" "csv" "CSTAR".
Proof.
  split.
  - right. intros [pre [post H]]. scan_occurrences H pre.
  - intros pre post H. scan_occurrences H pre.
Qed.

Lemma listed_names_address_listed_files_witness :
  get_flist db_fs "db" "csv" = ["CSTAR"]
  /\ map (fpath_of db_reader) (get_flist db_fs "db" "csv")
     = glob db_fs (path_join "db" ("**/*." ++ "csv")).
Proof.
  exact (listed_names_address_listed_files db_fs db_reader ["CSTAR"] eq_refl
           (Forall_cons _ CSTAR_is_well_named (Forall_nil _))).
Defined.

Lemma init_takes_labels_of_first_listed_table_witness :
  CeaPost.init db_fs "db" "csv" = Ok db_reader.
Proof.
  exact (proj1 (proj2 (init_takes_labels_of_first_listed_table db_fs "db" "csv" ["CSTAR"]
                         eq_refl eq_refl
                         (Forall_cons _ CSTAR_is_well_named (Forall_nil _))))
               "CSTAR" [] cstar_frame eq_refl eq_refl).
Defined.

End ListingRuns.

Section EngineExtras.

Import CeaPost.

Variable fs : filesystem.
Variable interp2d : list Q -> list Q -> list (list Q) -> result surface.

(** The slope and the anchor of an out-of-range branch depend on the
    pressure and the grid, not on the mixture ratio asked for. *)
Lemma func_below_fixed_line (grid ca : list Q) (p lo : Q) :
  List.length ca = List.length grid ->
  (3 <= List.length grid)%nat ->
  Np.min grid = Ok lo ->
  exists b diff, forall strat o_f,
    func_below grid ca strat o_f p = dispatch strat o_f p lo b diff.
Proof.
  intros Hca Hn Hlo.
  assert (Hlen : Np.len ca = Z.of_nat (List.length grid))
    by (unfold Np.len; now rewrite Hca).
  assert (Hg : Np.len grid = Z.of_nat (List.length grid)) by reflexivity.
  eexists. eexists. intros strat o_f. unfold func_below.
  rewrite (getitem_nonneg ca 0 0) by lia. cbn [bind].
  rewrite (getitem_nonneg ca 1 0) by lia. cbn [bind].
  rewrite (getitem_nonneg ca 2 0) by lia. cbn [bind].
  rewrite (getitem_nonneg grid 1 0) by lia. cbn [bind].
  rewrite (getitem_nonneg grid 0 0) by lia. cbn [bind].
  rewrite Hlo. cbn [bind]. reflexivity.
Qed.

Lemma func_above_fixed_line (grid ca : list Q) (p hi : Q) :
  List.length ca = List.length grid ->
  (2 <= List.length grid)%nat ->
  Np.max grid = Ok hi ->
  exists b diff, forall strat o_f,
    func_above grid ca strat o_f p = dispatch strat o_f p hi b diff.
Proof.
  intros Hca Hn Hhi.
  assert (Hlen : Np.len ca = Z.of_nat (List.length grid))
    by (unfold Np.len; now rewrite Hca).
  assert (Hg : Np.len grid = Z.of_nat (List.length grid)) by reflexivity.
  eexists. eexists. intros strat o_f. unfold func_above.
  rewrite (getitem_in_range ca (Np.len ca - 3) 0) by lia. cbn [bind].
  rewrite (getitem_in_range ca (Np.len ca - 2) 0) by lia. cbn [bind].
  rewrite (getitem_in_range ca (Np.len ca - 1) 0) by lia. cbn [bind].
  rewrite (getitem_in_range grid (Np.len grid - 1) 0) by lia. cbn [bind].
  rewrite (getitem_in_range grid (Np.len grid - 2) 0) by lia. cbn [bind].
  rewrite Hhi. cbn [bind]. reflexivity.
Qed.

(** X1: with [extraporate=False] an evaluation outside the grid's range
    returns [None]: [cea_exe] is an empty stub. *)
Theorem false_sentinel_returns_None_outside :
  forall (self : Read_datset) (param_name : string)
         (f : Q -> Q -> result pyval) (grid : list Q) (o_f P lo hi : Q),
    gen_func fs interp2d self param_name SFalse = Ok f ->
    of_ self = Some grid ->
    (3 <= List.length grid)%nat ->
    Np.min grid = Ok lo ->
    Np.max grid = Ok hi ->
    o_f < lo \/ hi < o_f ->
    f o_f P = Ok PyNone.
Proof.
  intros self param_name f grid o_f P lo hi Hf Hgrid Hn Hlo Hhi Hout.
  destruct (gen_func_inv fs interp2d _ _ _ _ Hf)
    as [array [grid' [pcs [s [_ [Hg' [_ [_ ->]]]]]]]].
  rewrite Hgrid in Hg'. injection Hg' as <-.
  pose proof (interp2d_call_length s grid (P * 1.0e-6)) as Hca.
  destruct Hout as [Hlt | Hlt].
  - rewrite (func_below_reached _ _ _ _ _ _ Hlo Hlt).
    destruct (func_below_fixed_line grid _ (P * 1.0e-6) lo Hca Hn Hlo) as [b [diff ->]].
    reflexivity.
  - rewrite (func_above_reached _ _ _ _ _ _ Hhi Hlt).
    destruct (func_above_fixed_line grid _ (P * 1.0e-6) hi Hca ltac:(lia) Hhi)
      as [b [diff ->]].
    reflexivity.
Qed.

(** X2: beyond either end of the range the "linear" function is a straight
    line in the mixture ratio: between any two points on the same side the
    values differ by one slope times the distance. *)
Theorem extrapolation_is_a_straight_line :
  forall (self : Read_datset) (param_name : string)
         (f : Q -> Q -> result pyval) (grid : list Q) (P lo hi : Q),
    gen_func fs interp2d self param_name (SName "linear") = Ok f ->
    of_ self = Some grid ->
    (3 <= List.length grid)%nat ->
    Np.min grid = Ok lo ->
    Np.max grid = Ok hi ->
    exists slope_lo slope_hi : Q,
      (forall o1 o2, o1 < lo -> o2 < lo ->
         exists v1 v2, f o1 P = Ok (PyFloat v1) /\ f o2 P = Ok (PyFloat v2)
                       /\ v1 - v2 == slope_lo * (o1 - o2))
      /\ (forall o1 o2, hi < o1 -> hi < o2 ->
            exists v1 v2, f o1 P = Ok (PyFloat v1) /\ f o2 P = Ok (PyFloat v2)
                          /\ v1 - v2 == slope_hi * (o1 - o2)).
Proof.
  intros self param_name f grid P lo hi Hf Hgrid Hn Hlo Hhi.
  destruct (gen_func_inv fs interp2d _ _ _ _ Hf)
    as [array [grid' [pcs [s [_ [Hg' [_ [_ ->]]]]]]]].
  rewrite Hgrid in Hg'. injection Hg' as <-.
  pose proof (interp2d_call_length s grid (P * 1.0e-6)) as Hca.
  destruct (func_below_fixed_line grid _ (P * 1.0e-6) lo Hca Hn Hlo) as [b [d Hb]].
  destruct (func_above_fixed_line grid _ (P * 1.0e-6) hi Hca ltac:(lia) Hhi)
    as [b' [d' Ha]].
  exists d, d'. split.
  - intros o1 o2 H1 H2.
    rewrite (func_below_reached _ _ _ _ _ _ Hlo H1), (func_below_reached _ _ _ _ _ _ Hlo H2).
    rewrite !Hb, !dispatch_linear. eexists. eexists.
    split; [reflexivity |]. split; [reflexivity |].
    unfold extrapfunc_linear. ring.
  - intros o1 o2 H1 H2.
    rewrite (func_above_reached _ _ _ _ _ _ Hhi H1), (func_above_reached _ _ _ _ _ _ Hhi H2).
    rewrite !Ha, !dispatch_linear. eexists. eexists.
    split; [reflexivity |]. split; [reflexivity |].
    unfold extrapfunc_linear. ring.
Qed.

(** X3: the strategy is not looked at when the function is built, and not
    inside the range: whatever builds with one strategy builds with any
    other (an unknown name is not refused), and the two functions return the
    same number at every mixture ratio of [[of.min(), of.max()]]. *)
Theorem strategy_is_only_read_outside_the_range :
  forall (self : Read_datset) (param_name : string) (strat strat' : strategy)
         (f : Q -> Q -> result pyval),
    gen_func fs interp2d self param_name strat = Ok f ->
    exists f',
      gen_func fs interp2d self param_name strat' = Ok f'
      /\ forall grid lo hi o_f P,
           of_ self = Some grid ->
           Np.min grid = Ok lo -> Np.max grid = Ok hi ->
           lo <= o_f -> o_f <= hi ->
           exists v, f o_f P = Ok (PyFloat v) /\ f' o_f P = Ok (PyFloat v).
Proof.
  intros self param_name strat strat' f Hf.
  destruct (gen_func_inv fs interp2d _ _ _ _ Hf)
    as [array [grid0 [pcs [s [Harr [Hg [Hp [Hs ->]]]]]]]].
  exists (func grid0 s strat'). split.
  - unfold gen_func. rewrite Harr, Hg, Hp. cbn [bind attr]. rewrite Hs. reflexivity.
  - intros grid lo hi o_f P Hgrid Hlo Hhi H1 H2.
    rewrite Hg in Hgrid. injection Hgrid as <-.
    exists (s o_f (P * 1.0e-6)).
    split; apply (func_inrange_reached _ _ _ _ _ lo hi); assumption.
Qed.

(** X4: [__init__] on a folder that does not exist returns the reader
    without the labels [self.of] and [self.Pc], and [gen_func] on that reader
    never returns a function: a table whose file is absent is reported with
    [SystemExit(1)]; a table whose file exists (the name is an absolute path,
    which [os.path.join] keeps whole) fails with the reader's error if it
    cannot be read, and with the [AttributeError] of the missing [self.of]
    if it can. *)
Theorem reader_of_missing_folder_builds_nothing :
  forall (fld ext : string),
    path_exists fs fld = false ->
    let self := {| fld_path := fld; fexten := ext; of_ := None; Pc := None |} in
    init fs fld ext = Ok self
    /\ forall param_name strat,
         (path_exists fs (fpath_of self param_name) = false ->
            gen_func fs interp2d self param_name strat = Err (SystemExit 1))
         /\ (forall frame,
               path_exists fs (fpath_of self param_name) = true ->
               read_csv fs (fpath_of self param_name) = Ok frame ->
               gen_func fs interp2d self param_name strat = Err AttributeError)
         /\ (forall e,
               path_exists fs (fpath_of self param_name) = true ->
               read_csv fs (fpath_of self param_name) = Err e ->
               gen_func fs interp2d self param_name strat = Err e).
Proof.
  intros fld ext Hmiss self.
  split; [unfold init; now rewrite Hmiss |].
  intros param_name strat. split; [| split].
  - intros H. unfold gen_func, _read_csv_. now rewrite H.
  - intros frame H Hread. unfold gen_func, _read_csv_. rewrite H, Hread. reflexivity.
  - intros e H Hread. unfold gen_func, _read_csv_. rewrite H, Hread. reflexivity.
Qed.

End EngineExtras.

Section TangentFacts.

Import CeaPost.

Variable fs : filesystem.
Variable interp2d : list Q -> list Q -> list (list Q) -> result surface.

Lemma begin_slope_of_parabola (alpha beta gamma x0 x1 x2 h s0 s1 s2 : Q) :
  ~ h == 0 -> x1 - x0 == h -> x2 - x1 == h ->
  s0 == alpha + beta * x0 + gamma * x0 * x0 ->
  s1 == alpha + beta * x1 + gamma * x1 * x1 ->
  s2 == alpha + beta * x2 + gamma * x2 * x2 ->
  (-3 * s0 + 4 * s1 - s2) / (2 * (x1 - x0)) == beta + 2 * gamma * x0.
Proof.
  intros Hh H1 H2 E0 E1 E2.
  assert (X1 : x1 == x0 + h) by lra.
  assert (X2 : x2 == x0 + 2 * h) by lra.
  rewrite E0, E1, E2, X1, X2. field.
  intros H. apply Hh. lra.
Qed.

Lemma end_slope_of_parabola (alpha beta gamma x0 x1 x2 h s0 s1 s2 : Q) :
  ~ h == 0 -> x1 - x0 == h -> x2 - x1 == h ->
  s0 == alpha + beta * x0 + gamma * x0 * x0 ->
  s1 == alpha + beta * x1 + gamma * x1 * x1 ->
  s2 == alpha + beta * x2 + gamma * x2 * x2 ->
  (s0 - 4 * s1 + 3 * s2) / (2 * (x2 - x1)) == beta + 2 * gamma * x2.
Proof.
  intros Hh H1 H2 E0 E1 E2.
  assert (X1 : x1 == x2 - h) by lra.
  assert (X0 : x0 == x2 - 2 * h) by lra.
  rewrite E0, E1, E2, X1, X0. field.
  intros H. apply Hh. lra.
Qed.

Lemma increasing_nth_lt (grid : list Q) (i j : nat) :
  StronglySorted Qlt grid -> (i < j)%nat -> (j < List.length grid)%nat ->
  nth i grid 0 < nth j grid 0.
Proof.
  intros Hs. revert i j. induction Hs as [| x r Hr IH Hx]; intros i j Hij Hj.
  - simpl in Hj. lia.
  - destruct j as [| j]; [lia |]. simpl in Hj. destruct i as [| i]; simpl.
    + rewrite Forall_forall in Hx. apply Hx, nth_In. lia.
    + apply IH; lia.
Qed.

(** X7: when the first three grid mixture ratios are equally spaced, the
    extrapolation below [of.min()] is the tangent at [of.min()] of the
    parabola through the function's values at those three points; the same
    holds above [of.max()] with the last three grid points. *)
Theorem extrapolation_is_the_tangent_of_the_end_parabola :
  forall (self : Read_datset) (param_name : string)
         (f : Q -> Q -> result pyval) (grid : list Q) (P o_f : Q),
    gen_func fs interp2d self param_name (SName "linear") = Ok f ->
    of_ self = Some grid ->
    StronglySorted Qlt grid ->
    (3 <= List.length grid)%nat ->
    let n := List.length grid in
    let x := fun i : nat => nth i grid 0 in
    (forall alpha beta gamma h : Q,
       x 1%nat - x 0%nat == h -> x 2%nat - x 1%nat == h ->
       (forall i, (i < 3)%nat ->
          exists v, f (x i) P = Ok (PyFloat v)
                    /\ v == alpha + beta * x i + gamma * x i * x i) ->
       o_f < x 0%nat ->
       exists v, f o_f P = Ok (PyFloat v)
                 /\ v == (alpha + beta * x 0%nat + gamma * x 0%nat * x 0%nat)
                         + (beta + 2 * gamma * x 0%nat) * (o_f - x 0%nat))
    /\
    (forall alpha beta gamma h : Q,
       x (n - 2)%nat - x (n - 3)%nat == h -> x (n - 1)%nat - x (n - 2)%nat == h ->
       (forall i, (n - 3 <= i < n)%nat ->
          exists v, f (x i) P = Ok (PyFloat v)
                    /\ v == alpha + beta * x i + gamma * x i * x i) ->
       x (n - 1)%nat < o_f ->
       exists v, f o_f P = Ok (PyFloat v)
                 /\ v == (alpha + beta * x (n - 1)%nat + gamma * x (n - 1)%nat * x (n - 1)%nat)
                         + (beta + 2 * gamma * x (n - 1)%nat) * (o_f - x (n - 1)%nat)).
Proof.
  intros self param_name f grid P o_f Hf Hgrid Hsorted Hn n x.
  destruct (gen_func_inv fs interp2d _ _ _ _ Hf)
    as [array [grid' [pcs [s [_ [Hg' [_ [_ ->]]]]]]]].
  rewrite Hgrid in Hg'. injection Hg' as <-.
  assert (Hlo : Np.min grid = Ok (x 0%nat)).
  { destruct grid as [| g r]; [simpl in Hn; lia |]. now apply min_increasing. }
  assert (Hhi : Np.max grid = Ok (x (n - 1)%nat)).
  { apply max_increasing; [assumption | destruct grid; [simpl in Hn; lia | congruence]]. }
  assert (Hval : forall i v, (i < n)%nat ->
                   func grid s (SName "linear") (x i) P = Ok (PyFloat v) ->
                   s (x i) (P * 1.0e-6) = v).
  { intros i v Hi Hv. rewrite (func_at_grid_point grid s _ P i Hi) in Hv.
    now injection Hv. }
  split.
  - intros alpha beta gamma h H1 H2 Hq Hlt.
    assert (Hh : ~ h == 0).
    { pose proof (increasing_nth_lt grid 0 1 Hsorted ltac:(lia) ltac:(lia)) as L.
      fold (x 0%nat) in L. fold (x 1%nat) in L. intros E. lra. }
    destruct (Hq 0%nat ltac:(lia)) as [v0 [F0 E0]].
    destruct (Hq 1%nat ltac:(lia)) as [v1 [F1 E1]].
    destruct (Hq 2%nat ltac:(lia)) as [v2 [F2 E2]].
    apply Hval in F0, F1, F2; try (unfold n; lia). subst v0 v1 v2.
    rewrite (func_below_reached _ _ _ _ _ _ Hlo Hlt).
    rewrite (func_below_dispatch grid s _ o_f _ _ Hn (sort_increasing _ Hsorted) Hlo).
    cbv zeta. rewrite dispatch_linear. eexists. split; [reflexivity |].
    unfold extrapfunc_linear. fold (x 0%nat). fold (x 1%nat). fold (x 2%nat).
    rewrite (begin_slope_of_parabola alpha beta gamma (x 0%nat) (x 1%nat) (x 2%nat) h
               _ _ _ Hh H1 H2 E0 E1 E2).
    rewrite E0. ring.
  - intros alpha beta gamma h H1 H2 Hq Hlt.
    assert (Hh : ~ h == 0).
    { pose proof (increasing_nth_lt grid (n - 2) (n - 1) Hsorted ltac:(unfold n; lia)
                    ltac:(unfold n; lia)) as L.
      fold (x (n - 2)%nat) in L. fold (x (n - 1)%nat) in L. intros E. lra. }
    destruct (Hq (n - 3)%nat ltac:(unfold n; lia)) as [v0 [F0 E0]].
    destruct (Hq (n - 2)%nat ltac:(unfold n; lia)) as [v1 [F1 E1]].
    destruct (Hq (n - 1)%nat ltac:(unfold n; lia)) as [v2 [F2 E2]].
    apply Hval in F0, F1, F2; try (unfold n; lia). subst v0 v1 v2.
    rewrite (func_above_reached _ _ _ _ _ _ Hhi Hlt).
    rewrite (func_above_dispatch grid s _ o_f _ _ Hn (sort_increasing _ Hsorted) Hhi).
    cbv zeta. rewrite dispatch_linear. eexists. split; [reflexivity |].
    unfold extrapfunc_linear. fold n.
    fold (x (n - 1)%nat). fold (x (n - 2)%nat). fold (x (n - 3)%nat).
    rewrite (end_slope_of_parabola alpha beta gamma (x (n - 3)%nat) (x (n - 2)%nat)
               (x (n - 1)%nat) h _ _ _ Hh H1 H2 E0 E1 E2).
    rewrite E2. ring.
Qed.

End TangentFacts.

Section ResidualFacts.

Import DesignEBHR.

Variable Read_datset_gen_func : string -> string -> result cstr_fn.

Lemma residual_inv (self : Gen_excond_table) (Pc mox Dt r : Q) :
  _iterat_func_Pc_ Read_datset_gen_func self Pc mox Dt = Ok r ->
  exists func_cstr Pc_cal,
    gen_func_cstr Read_datset_gen_func (cea_path self) = Ok func_cstr
    /\ func_Pc_cal
         (func_of (func_Vox Pc mox (Rm self) (Tox self) (Df self) (a self))
                  (func_Vf (func_Vox Pc mox (Rm self) (Tox self) (Df self) (a self))
                           Pc (C1 self) (C2 self) 1)
                  (rho_f self) (Df self) (a self))
         Pc mox func_cstr Dt (eta self) = Ok Pc_cal
    /\ r = (Pc_cal - Pc) / Pc_cal.
Proof.
  unfold _iterat_func_Pc_. intros H.
  apply bind_Ok_inv in H as [func_cstr [Hdb H]].
  apply bind_Ok_inv in H as [Pc_cal [Hcal H]].
  exists func_cstr, Pc_cal. injection H as <-. repeat split; assumption.
Qed.

(** X8: a root of the residual is a self-consistent pressure: whenever
    the residual is returned and the predicted pressure is not zero, the
    residual vanishes exactly when predicted and assumed pressure agree. *)
Theorem residual_root_is_self_consistent_pressure :
  forall (self : Gen_excond_table) (Pc mox Dt r : Q),
    _iterat_func_Pc_ Read_datset_gen_func self Pc mox Dt = Ok r ->
    exists func_cstr Pc_cal,
      gen_func_cstr Read_datset_gen_func (cea_path self) = Ok func_cstr
      /\ func_Pc_cal
           (func_of (func_Vox Pc mox (Rm self) (Tox self) (Df self) (a self))
                    (func_Vf (func_Vox Pc mox (Rm self) (Tox self) (Df self) (a self))
                             Pc (C1 self) (C2 self) 1)
                    (rho_f self) (Df self) (a self))
           Pc mox func_cstr Dt (eta self) = Ok Pc_cal
      /\ (~ Pc_cal == 0 -> (r == 0 <-> Pc_cal == Pc)).
Proof.
  intros self Pc mox Dt r H.
  destruct (residual_inv self Pc mox Dt r H) as [func_cstr [Pc_cal [Hdb [Hcal ->]]]].
  exists func_cstr, Pc_cal. split; [exact Hdb |]. split; [exact Hcal |].
  intros Hnz. split.
  - intros E. assert (E' : (Pc_cal - Pc) / Pc_cal * Pc_cal == 0) by (rewrite E; ring).
    rewrite Qmult_comm, Qmult_div_r in E' by exact Hnz. lra.
  - intros E. rewrite E. unfold Qdiv. ring.
Qed.

(** X9: the sign convention of the residual, with the predicted pressure
    being the one [func_Pc_cal] returns on the velocity chain: when it is
    positive, the residual is positive exactly when the assumed pressure is
    below the predicted one, negative exactly when it is above, and for a
    positive assumed pressure it does not exceed 1. *)
Theorem residual_sign_and_bound :
  forall (self : Gen_excond_table) (Pc mox Dt r : Q),
    _iterat_func_Pc_ Read_datset_gen_func self Pc mox Dt = Ok r ->
    exists func_cstr Pc_cal,
      gen_func_cstr Read_datset_gen_func (cea_path self) = Ok func_cstr
      /\ func_Pc_cal
           (func_of (func_Vox Pc mox (Rm self) (Tox self) (Df self) (a self))
                    (func_Vf (func_Vox Pc mox (Rm self) (Tox self) (Df self) (a self))
                             Pc (C1 self) (C2 self) 1)
                    (rho_f self) (Df self) (a self))
           Pc mox func_cstr Dt (eta self) = Ok Pc_cal
      /\ (0 < Pc_cal ->
            (0 < r <-> Pc < Pc_cal)
            /\ (r < 0 <-> Pc_cal < Pc)
            /\ (0 < Pc -> r <= 1)).
Proof.
  intros self Pc mox Dt r H.
  destruct (residual_inv self Pc mox Dt r H) as [func_cstr [Pc_cal [Hdb [Hcal ->]]]].
  exists func_cstr, Pc_cal. split; [exact Hdb |]. split; [exact Hcal |].
  intros Hpos.
  assert (Hnz : ~ Pc_cal == 0) by lra.
  assert (Hinv : 0 < / Pc_cal) by (now apply Qinv_lt_0_compat).
  assert (E : (Pc_cal - Pc) / Pc_cal == 1 - Pc * / Pc_cal) by (field; exact Hnz).
  assert (Hone : Pc_cal * / Pc_cal == 1) by (field; exact Hnz).
  split; [split | split; [split |]].
  - intros Hr. rewrite E in Hr.
    destruct (Qlt_le_dec Pc Pc_cal) as [L | L]; [exact L |].
    exfalso. assert (Pc_cal * / Pc_cal <= Pc * / Pc_cal)
      by (apply Qmult_le_compat_r; [exact L | lra]). lra.
  - intros L. rewrite E.
    assert (Pc * / Pc_cal < Pc_cal * / Pc_cal)
      by (apply Qmult_lt_compat_r; assumption). lra.
  - intros Hr. rewrite E in Hr.
    destruct (Qlt_le_dec Pc_cal Pc) as [L | L]; [exact L |].
    exfalso. assert (Pc * / Pc_cal <= Pc_cal * / Pc_cal)
      by (apply Qmult_le_compat_r; [exact L | lra]). lra.
  - intros L. rewrite E.
    assert (Pc_cal * / Pc_cal < Pc * / Pc_cal)
      by (apply Qmult_lt_compat_r; assumption). lra.
  - intros HPc. rewrite E.
    assert (0 < Pc * / Pc_cal) by (apply Qmult_lt_0_compat; assumption). lra.
Qed.

End ResidualFacts.

Section PortFacts.

Import DesignEBHR.

(** X10: the injection velocity is the oxidizer volume flow through the [N]
    ports of diameter [d] (given in mm): the free area [Af * (1 - a)] kept by
    the instance is [N * pi * (d * 1e-3)^2 / 4]. *)
Theorem injection_velocity_uses_the_port_area :
  forall (d N Df0 eta0 rho Rm0 Tox0 c1 c2 : Q) (path : string)
         (moxs Dts : list Q) (Pc mox : Q),
    ~ Df0 == 0 ->
    let self := init d N Df0 eta0 rho Rm0 Tox0 c1 c2 path moxs Dts in
    func_Vox Pc mox (Rm self) (Tox self) (Df self) (a self)
    == mox * Rm0 * Tox0 / (Pc * (N * (Np.pi * (d * 1.0e-3) ^ 2 / 4))).
Proof.
  intros d N Df0 eta0 rho Rm0 Tox0 c1 c2 path moxs Dts Pc mox HDf self.
  unfold func_Vox, self, init. cbn [Rm Tox Df a]. unfold Np.power.
  assert (E : Pc * (Np.pi * (Df0 * 1.0e-3) ^ 2 / 4) * (1 - (1 - N * d ^ 2 / Df0 ^ 2))
              == Pc * (N * (Np.pi * (d * 1.0e-3) ^ 2 / 4))).
  { simpl Qpower. field. split; [intros H; vm_compute in H; discriminate H | exact HDf]. }
  unfold Qdiv at 1. unfold Qdiv at 3. now rewrite E.
Qed.

End PortFacts.

Section TableFacts.

Import DesignEBHR.

Variable Read_datset_gen_func : string -> string -> result cstr_fn.
Variable newton : (Q -> result Q) -> Q -> nat -> Q -> result Q.
Variable brentq : (Q -> result Q) -> Q -> Q -> nat -> Q -> result Q.
Variable self : Gen_excond_table.

Let cell (mox Dt : Q) : result Q :=
  converge_Pc Read_datset_gen_func newton brentq self mox Dt 1.0e+6.
Let inner := mox_loop Read_datset_gen_func newton brentq self.
Let outer := Dt_loop Read_datset_gen_func newton brentq self.

Lemma set_column_Forall (P : Q * list Q -> Prop) (cols : list (Q * list Q))
    (key : Q) (col : list Q) :
  Forall P cols -> (forall k, k == key -> P (k, col)) ->
  Forall P (set_column cols key col).
Proof.
  intros Hcols Hnew. induction Hcols as [| [k c] rest Hk Hrest IH]; simpl.
  - constructor; [apply Hnew; reflexivity | constructor].
  - destruct (Qeq_bool k key) eqn:E.
    + constructor; [apply Hnew; now apply Qeq_bool_iff | assumption].
    + constructor; assumption.
Qed.

Lemma set_column_length (cols : list (Q * list Q)) (key : Q) (col : list Q) :
  (List.length (set_column cols key col) <= S (List.length cols))%nat.
Proof.
  induction cols as [| [k c] rest IH]; simpl; [lia |].
  destruct (Qeq_bool k key); simpl; lia.
Qed.

Lemma mox_loop_Ok_inv (Dt : Q) (todo : list Q) :
  forall acc res,
    inner Dt todo acc = Ok res ->
    exists col, res = acc ++ col
                /\ Forall2 (fun mox p => cell mox Dt = Ok p) todo col.
Proof.
  induction todo as [| mox rest IH]; intros acc res H.
  - injection H as <-. exists []. split; [now rewrite app_nil_r | constructor].
  - unfold inner in H. simpl in H. apply bind_Ok_inv in H as [p [Hp H]].
    destruct (IH _ _ H) as [col [-> Hcol]].
    exists (p :: col). split; [now rewrite <- app_assoc |].
    constructor; assumption.
Qed.

Lemma mox_loop_prefix (Dt : Q) (done rest : list Q) :
  (forall m, In m done -> exists p, cell m Dt = Ok p) ->
  forall acc, exists col, inner Dt (done ++ rest) acc = inner Dt rest (acc ++ col).
Proof.
  induction done as [| m done IH]; intros Hall acc.
  - exists []. now rewrite app_nil_r.
  - destruct (Hall m (or_introl eq_refl)) as [p Hp].
    destruct (IH (fun x Hx => Hall x (or_intror Hx)) (acc ++ [p])) as [col Hcol].
    exists (p :: col). unfold inner in *. simpl. fold (cell m Dt). rewrite Hp. simpl.
    rewrite Hcol. now rewrite <- app_assoc.
Qed.

Lemma Dt_loop_prefix (done rest : list Q) :
  (forall m d, In m (mox_range self) -> In d done -> exists p, cell m d = Ok p) ->
  forall df, exists df', outer (done ++ rest) df = outer rest df'.
Proof.
  induction done as [| D done IH]; intros Hall df.
  - exists df. reflexivity.
  - destruct (mox_loop_all_converged Read_datset_gen_func newton brentq self D
                (mox_range self) (fun m Hm => Hall m D Hm (or_introl eq_refl)) [])
      as [col [Hrun _]].
    destruct (IH (fun m d Hm Hd => Hall m d Hm (or_intror Hd)) (setitem df D col))
      as [df' Hdf'].
    exists df'. unfold outer in *. simpl. rewrite Hrun. simpl. exact Hdf'.
Qed.

(** X11: the error of a failed sweep is the error of the first failing cell
    in the order of the loops: throat diameters outermost, mass flows
    innermost. *)
Theorem gen_table_reports_the_first_failure :
  forall (D1 D2 M1 M2 : list Q) (Dt mox : Q) (e : exn),
    Dt_range self = D1 ++ Dt :: D2 ->
    mox_range self = M1 ++ mox :: M2 ->
    (forall m d, In m (mox_range self) -> In d D1 -> exists p, cell m d = Ok p) ->
    (forall m, In m M1 -> exists p, cell m Dt = Ok p) ->
    cell mox Dt = Err e ->
    gen_table Read_datset_gen_func newton brentq self = Err e.
Proof.
  intros D1 D2 M1 M2 Dt mox e HD HM Hbefore Hrow Hfail.
  unfold gen_table. rewrite HD.
  destruct (Dt_loop_prefix D1 (Dt :: D2) Hbefore
              {| index := mox_range self; columns := [] |}) as [df' Hpre].
  unfold outer in Hpre. rewrite Hpre. simpl. rewrite HM.
  destruct (mox_loop_prefix Dt M1 (mox :: M2) Hrow []) as [col Hcol].
  unfold inner in Hcol. rewrite Hcol. simpl. fold (cell mox Dt). rewrite Hfail.
  reflexivity.
Qed.

Lemma Dt_loop_Ok_inv (P : Q * list Q -> Prop) (todo : list Q) :
  (forall Dt col k, In Dt todo -> k == Dt ->
     Forall2 (fun mox p => cell mox Dt = Ok p) (mox_range self) col -> P (k, col)) ->
  forall df df',
    outer todo df = Ok df' ->
    Forall P (columns df) ->
    index df' = index df
    /\ Forall P (columns df')
    /\ (List.length (columns df') <= List.length (columns df) + List.length todo)%nat.
Proof.
  induction todo as [| D rest IH]; intros HP df df' H Hdf.
  - injection H as <-. repeat split; [assumption | lia].
  - unfold outer in H. simpl in H. apply bind_Ok_inv in H as [col [Hcol H]].
    destruct (mox_loop_Ok_inv D (mox_range self) [] col Hcol) as [col' [E Hcells]].
    simpl in E. subst col'.
    destruct (IH (fun Dt c k Hin => HP Dt c k (or_intror Hin)) (setitem df D col) df' H)
      as [Hidx [Hall Hlen]].
    + simpl. apply set_column_Forall; [assumption |].
      intros k Hk. apply (HP D col k); [now left | assumption | assumption].
    + split; [exact Hidx |]. split; [exact Hall |].
      simpl in Hlen. pose proof (set_column_length (columns df) D col). simpl. lia.
Qed.

(** X12: a table that [gen_table] returns is complete and well shaped: its
    index is the mass-flow range, every cell of the sweep converged, every
    column belongs to a throat diameter of the range and holds, row by row,
    the converged pressures of that diameter, and there are no more columns
    than throat diameters. *)
Theorem returned_table_is_complete :
  forall df,
    gen_table Read_datset_gen_func newton brentq self = Ok df ->
    index df = mox_range self
    /\ (forall mox Dt, In mox (mox_range self) -> In Dt (Dt_range self) ->
                       exists p, cell mox Dt = Ok p)
    /\ Forall (fun kc =>
                 exists Dt, In Dt (Dt_range self) /\ fst kc == Dt
                            /\ Forall2 (fun mox p => cell mox Dt = Ok p)
                                       (mox_range self) (snd kc))
              (columns df)
    /\ (List.length (columns df) <= List.length (Dt_range self))%nat.
Proof.
  intros df H. unfold gen_table in H.
  destruct (Dt_loop_Ok_inv
              (fun kc => exists Dt, In Dt (Dt_range self) /\ fst kc == Dt
                                    /\ Forall2 (fun mox p => cell mox Dt = Ok p)
                                               (mox_range self) (snd kc))
              (Dt_range self)
              (fun Dt col k Hin Hk Hc => ex_intro _ Dt (conj Hin (conj Hk Hc)))
              _ df H (Forall_nil _)) as [Hidx [Hcols Hlen]].
  split; [exact Hidx |]. split; [| split; [exact Hcols | exact Hlen]].
  intros mox Dt Hm HD. destruct (cell mox Dt) as [p | e] eqn:Hc; [now exists p |].
  destruct (Dt_loop_one_failure Read_datset_gen_func newton brentq self (Dt_range self)
              (ex_intro _ mox (ex_intro _ Dt (ex_intro _ e (conj Hm (conj HD Hc)))))
              {| index := mox_range self; columns := [] |}) as [e' He'].
  unfold outer in H. congruence.
Qed.

Lemma Dt_loop_without_rows (todo : list Q) :
  mox_range self = [] ->
  forall df,
    Forall (fun kc => snd kc = []) (columns df) ->
    exists df',
      outer todo df = Ok df'
      /\ index df' = index df
      /\ Forall (fun kc => snd kc = []) (columns df').
Proof.
  intros Hempty. induction todo as [| D rest IH]; intros df Hcols.
  - exists df. repeat split; assumption.
  - destruct (IH (setitem df D [])) as [df' [Hrun [Hidx Hall]]].
    + simpl. apply set_column_Forall; [assumption | reflexivity].
    + exists df'. unfold outer in *. simpl. rewrite Hempty. simpl.
      repeat split; assumption.
Qed.

(** X13: over an empty mass-flow range the sweep never consults the solver:
    whatever the root finders would do, a table with an empty index and
    empty columns comes back. *)
Theorem empty_mass_flow_range_yields_empty_columns :
  mox_range self = [] ->
  exists df,
    gen_table Read_datset_gen_func newton brentq self = Ok df
    /\ index df = []
    /\ Forall (fun kc => snd kc = []) (columns df).
Proof.
  intros Hempty.
  destruct (Dt_loop_without_rows (Dt_range self) Hempty
              {| index := mox_range self; columns := [] |} (Forall_nil _))
    as [df [Hrun [Hidx Hall]]].
  exists df. split; [exact Hrun |]. split; [| exact Hall].
  rewrite Hidx. exact Hempty.
Qed.

End TableFacts.


Section FurtherRuns.

Import Instances.
Import CeaPost.
Import DesignEBHR.

Lemma false_sentinel_returns_None_outside_witness :
  func [1; 2; 3; 4] cstar_surface SFalse 5 3.0e+6 = Ok PyNone
  /\ func [1; 2; 3; 4] cstar_surface SFalse 0.5 3.0e+6 = Ok PyNone.
Proof.
  split.
  - exact (false_sentinel_returns_None_outside db_fs interp2d_poly db_reader "CSTAR"
             (func [1; 2; 3; 4] cstar_surface SFalse) [1; 2; 3; 4] 5 3.0e+6 1 4
             eq_refl eq_refl (le_S _ _ (le_n 3)) eq_refl eq_refl (or_intror eq_refl)).
  - exact (false_sentinel_returns_None_outside db_fs interp2d_poly db_reader "CSTAR"
             (func [1; 2; 3; 4] cstar_surface SFalse) [1; 2; 3; 4] 0.5 3.0e+6 1 4
             eq_refl eq_refl (le_S _ _ (le_n 3)) eq_refl eq_refl (or_introl eq_refl)).
Defined.

Lemma extrapolation_is_a_straight_line_witness :
  exists slope_lo slope_hi : Q,
    (forall o1 o2, o1 < 1 -> o2 < 1 ->
       exists v1 v2,
         func [1; 2; 3; 4] cstar_surface (SName "linear") o1 3.0e+6 = Ok (PyFloat v1)
         /\ func [1; 2; 3; 4] cstar_surface (SName "linear") o2 3.0e+6 = Ok (PyFloat v2)
         /\ v1 - v2 == slope_lo * (o1 - o2))
    /\ (forall o1 o2, 4 < o1 -> 4 < o2 ->
          exists v1 v2,
            func [1; 2; 3; 4] cstar_surface (SName "linear") o1 3.0e+6 = Ok (PyFloat v1)
            /\ func [1; 2; 3; 4] cstar_surface (SName "linear") o2 3.0e+6 = Ok (PyFloat v2)
            /\ v1 - v2 == slope_hi * (o1 - o2)).
Proof.
  exact (extrapolation_is_a_straight_line db_fs interp2d_poly db_reader "CSTAR"
           (func [1; 2; 3; 4] cstar_surface (SName "linear")) [1; 2; 3; 4] 3.0e+6 1 4
           eq_refl eq_refl (le_S _ _ (le_n 3)) eq_refl eq_refl).
Defined.

Lemma strategy_is_only_read_outside_the_range_witness :
  exists f',
    gen_func db_fs interp2d_poly db_reader "CSTAR" (SName "exp") = Ok f'
    /\ forall grid lo hi o_f P,
         of_ db_reader = Some grid ->
         Np.min grid = Ok lo -> Np.max grid = Ok hi ->
         lo <= o_f -> o_f <= hi ->
         exists v,
           func [1; 2; 3; 4] cstar_surface (SName "linear") o_f P = Ok (PyFloat v)
           /\ f' o_f P = Ok (PyFloat v).
Proof.
  exact (strategy_is_only_read_outside_the_range db_fs interp2d_poly db_reader "CSTAR"
           (SName "linear") (SName "exp")
           (func [1; 2; 3; 4] cstar_surface (SName "linear")) eq_refl).
Defined.

Lemma reader_of_missing_folder_builds_nothing_witness :
  path_exists db_fs "nowhere" = false
  /\ CeaPost.init db_fs "nowhere" "csv" = Ok nowhere_reader
  /\ fpath_of nowhere_reader "CSTAR" = "nowhere/CSTAR.csv"%string
  /\ gen_func db_fs interp2d_poly nowhere_reader "CSTAR" (SName "linear")
     = Err (SystemExit 1)
  /\ fpath_of nowhere_reader "/data/CSTAR" = "/data/CSTAR.csv"%string
  /\ read_csv db_fs "/data/CSTAR.csv" = Ok cstar_frame
  /\ gen_func db_fs interp2d_poly nowhere_reader "/data/CSTAR" (SName "linear")
     = Err AttributeError.
Proof.
  destruct (reader_of_missing_folder_builds_nothing db_fs interp2d_poly "nowhere" "csv"
              eq_refl) as [Hinit Hgen].
  split; [reflexivity |]. split; [exact Hinit |]. split; [reflexivity |].
  split; [exact (proj1 (Hgen "CSTAR"%string (SName "linear")) eq_refl) |].
  split; [reflexivity |]. split; [reflexivity |].
  exact (proj1 (proj2 (Hgen "/data/CSTAR"%string (SName "linear")))
               cstar_frame eq_refl eq_refl).
Defined.

Lemma extrapolation_is_the_tangent_of_the_end_parabola_witness :
  exists v,
    func [1; 2; 3; 4] cstar_surface (SName "linear") 0.5 3.0e+6 = Ok (PyFloat v)
    /\ v == (1288 + 146 * 1 + -14 * 1 * 1) + (146 + 2 * -14 * 1) * (0.5 - 1).
Proof.
  apply (proj1 (extrapolation_is_the_tangent_of_the_end_parabola db_fs interp2d_poly
                  db_reader "CSTAR" (func [1; 2; 3; 4] cstar_surface (SName "linear"))
                  [1; 2; 3; 4] 3.0e+6 0.5
                  eq_refl eq_refl grid_1234_increasing (le_S _ _ (le_n 3)))
               1288 146 (-14) 1).
  - reflexivity.
  - reflexivity.
  - intros i Hi.
    destruct i as [| [| [| i]]]; [| | | lia];
      (eexists; split; [vm_compute; reflexivity | reflexivity]).
  - reflexivity.
Defined.

Lemma residual_root_is_self_consistent_pressure_witness :
  exists r,
    _iterat_func_Pc_ const_cstr_db single_motor 1.0e+6 0.01 0.007 = Ok r
    /\ exists func_cstr Pc_cal,
         gen_func_cstr const_cstr_db (cea_path single_motor) = Ok func_cstr
         /\ func_Pc_cal
              (func_of (func_Vox 1.0e+6 0.01 (Rm single_motor) (Tox single_motor)
                                 (Df single_motor) (a single_motor))
                       (func_Vf (func_Vox 1.0e+6 0.01 (Rm single_motor) (Tox single_motor)
                                          (Df single_motor) (a single_motor))
                                1.0e+6 (C1 single_motor) (C2 single_motor) 1)
                       (rho_f single_motor) (Df single_motor) (a single_motor))
              1.0e+6 0.01 func_cstr 0.007 (eta single_motor) = Ok Pc_cal
         /\ (~ Pc_cal == 0 -> (r == 0 <-> Pc_cal == 1.0e+6)).
Proof.
  eexists. split; [reflexivity |].
  apply (residual_root_is_self_consistent_pressure const_cstr_db single_motor
           1.0e+6 0.01 0.007). reflexivity.
Defined.

Lemma residual_sign_and_bound_witness :
  exists r Pc_cal,
    _iterat_func_Pc_ const_cstr_db single_motor 1.0e+6 0.01 0.007 = Ok r
    /\ func_Pc_cal
         (func_of (func_Vox 1.0e+6 0.01 (Rm single_motor) (Tox single_motor)
                            (Df single_motor) (a single_motor))
                  (func_Vf (func_Vox 1.0e+6 0.01 (Rm single_motor) (Tox single_motor)
                                     (Df single_motor) (a single_motor))
                           1.0e+6 (C1 single_motor) (C2 single_motor) 1)
                  (rho_f single_motor) (Df single_motor) (a single_motor))
         1.0e+6 0.01 (fun _ _ => Ok [1500]) 0.007 (eta single_motor) = Ok Pc_cal
    /\ 0 < Pc_cal /\ Pc_cal < 1.0e+6 /\ r < 0 /\ r <= 1.
Proof.
  eexists.
  destruct (residual_sign_and_bound const_cstr_db single_motor 1.0e+6 0.01 0.007 _ eq_refl)
    as [fc [pc [Hdb [Hcal Hs]]]].
  vm_compute in Hdb. injection Hdb as <-.
  exists pc. split; [reflexivity |]. split; [exact Hcal |].
  assert (Hpos : 0 < pc).
  { vm_compute in Hcal. injection Hcal as <-. reflexivity. }
  assert (Hlt : pc < 1.0e+6).
  { vm_compute in Hcal. injection Hcal as <-. reflexivity. }
  destruct (Hs Hpos) as [_ [Hneg Hle]].
  split; [exact Hpos |]. split; [exact Hlt |].
  split; [exact (proj2 Hneg Hlt) |]. apply Hle. reflexivity.
Defined.

Lemma injection_velocity_uses_the_port_area_witness :
  func_Vox 1.0e+6 0.01 (Rm single_motor) (Tox single_motor) (Df single_motor)
           (a single_motor)
  == 0.01 * 259.8 * 280 / (1.0e+6 * (433 * (Np.pi * (0.3 * 1.0e-3) ^ 2 / 4))).
Proof.
  apply (injection_velocity_uses_the_port_area 0.3 433 38 0.9 1191 259.8 280
           9.34e-8 2.46e-9 "cea_db/out" [] [] 1.0e+6 0.01).
  intros H. discriminate H.
Defined.

Lemma gen_table_reports_the_first_failure_witness :
  gen_table const_cstr_db newton_secant brentq_bisect sweep_motor = Err ValueError.
Proof.
  apply (gen_table_reports_the_first_failure const_cstr_db newton_secant brentq_bisect
           sweep_motor [] [0.002] [0.001] [] 0.001 0.002 ValueError).
  - reflexivity.
  - reflexivity.
  - intros m d _ [].
  - intros m [<- | []]. eexists. vm_compute. reflexivity.
  - vm_compute. reflexivity.
Defined.

Lemma returned_table_is_complete_witness :
  exists df,
    gen_table const_cstr_db newton_secant brentq_bisect full_motor = Ok df
    /\ index df = mox_range full_motor
    /\ (List.length (columns df) <= List.length (Dt_range full_motor))%nat.
Proof.
  eexists. split; [vm_compute; reflexivity |].
  refine ((fun H => conj (proj1 H) (proj2 (proj2 (proj2 H))))
            (returned_table_is_complete const_cstr_db newton_secant brentq_bisect
               full_motor _ _)).
  vm_compute. reflexivity.
Defined.

Lemma empty_mass_flow_range_yields_empty_columns_witness :
  exists df,
    gen_table const_cstr_db newton_secant brentq_bisect empty_motor = Ok df
    /\ index df = []
    /\ Forall (fun kc => snd kc = []) (columns df).
Proof.
  exact (empty_mass_flow_range_yields_empty_columns const_cstr_db newton_secant
           brentq_bisect empty_motor eq_refl).
Defined.

End FurtherRuns.

Section TotalityFacts.

Import CeaPost.

Variable fs : filesystem.
Variable interp2d : list Q -> list Q -> list (list Q) -> result surface.

(** X14: on a grid of at least three mixture ratios the "linear" function
    never raises: at every mixture ratio and every pressure it returns a
    number. *)
Theorem linear_function_always_returns_a_number :
  forall (self : Read_datset) (param_name : string)
         (f : Q -> Q -> result pyval) (grid : list Q),
    gen_func fs interp2d self param_name (SName "linear") = Ok f ->
    of_ self = Some grid ->
    (3 <= List.length grid)%nat ->
    forall o_f P, exists v, f o_f P = Ok (PyFloat v).
Proof.
  intros self param_name f grid Hf Hgrid Hn o_f P.
  destruct (gen_func_inv fs interp2d _ _ _ _ Hf)
    as [array [grid' [pcs [s [_ [Hg' [_ [_ ->]]]]]]]].
  rewrite Hgrid in Hg'. injection Hg' as <-.
  pose proof (interp2d_call_length s grid (P * 1.0e-6)) as Hca.
  destruct (Np.min grid) as [lo | e] eqn:Hlo; [| destruct grid; [simpl in Hn; lia | discriminate]].
  destruct (Np.max grid) as [hi | e] eqn:Hhi; [| destruct grid; [simpl in Hn; lia | discriminate]].
  destruct (Qlt_le_dec o_f lo) as [Hlt | Hge].
  - rewrite (func_below_reached _ _ _ _ _ _ Hlo Hlt).
    destruct (func_below_reaches_dispatch grid _ (SName "linear") o_f (P * 1.0e-6) lo
                Hca Hn Hlo) as [b [diff ->]].
    rewrite dispatch_linear. eexists. reflexivity.
  - destruct (Qlt_le_dec hi o_f) as [Hgt | Hle].
    + rewrite (func_above_reached _ _ _ _ _ _ Hhi Hgt).
      destruct (func_above_reaches_dispatch grid _ (SName "linear") o_f (P * 1.0e-6) hi
                  Hca ltac:(lia) Hhi) as [b [diff ->]].
      rewrite dispatch_linear. eexists. reflexivity.
    + rewrite (func_inrange_reached _ _ _ _ _ lo hi Hlo Hhi Hge Hle).
      eexists. reflexivity.
Qed.

End TotalityFacts.

Section PositivityFacts.

Import DesignEBHR.

Lemma Qdiv_pos (x y : Q) : 0 < x -> 0 < y -> 0 < x / y.
Proof.
  intros Hx Hy. unfold Qdiv. apply Qmult_lt_0_compat; [exact Hx |].
  now apply Qinv_lt_0_compat.
Qed.

Lemma pi_pos : 0 < Np.pi.
Proof. reflexivity. Qed.

Lemma port_section_pos (D : Q) : 0 < D -> 0 < Np.pi * Np.power D 2 / 4.
Proof.
  intros HD. apply Qdiv_pos; [| reflexivity].
  apply Qmult_lt_0_compat; [exact pi_pos |].
  unfold Np.power. simpl Qpower. now apply Qmult_lt_0_compat.
Qed.

(** X15: the velocity chain keeps its quantities positive: for positive
    pressure, mass flow, gas constant, temperature, port diameter, fuel
    density and regression constants and a blockage fraction strictly
    between 0 and 1, the injection velocity, the fuel velocity and the
    mixture ratio handed to the lookup are all positive. *)
Theorem velocity_chain_is_positive :
  forall (Pc mox Rm0 Tox0 D a0 c1 c2 rho : Q),
    0 < Pc -> 0 < mox -> 0 < Rm0 -> 0 < Tox0 -> 0 < D ->
    0 < a0 -> a0 < 1 -> 0 < c1 -> 0 < c2 -> 0 < rho ->
    let Vox := func_Vox Pc mox Rm0 Tox0 D a0 in
    let Vf := func_Vf Vox Pc c1 c2 1 in
    let o_f := func_of Vox Vf rho D a0 in
    0 < Vox /\ 0 < Vf /\ 0 < o_f.
Proof.
  intros Pc mox Rm0 Tox0 D a0 c1 c2 rho HPc Hmox HRm HTox HD Ha0 Ha1 Hc1 Hc2 Hrho
         Vox Vf o_f.
  pose proof (port_section_pos D HD) as HAf.
  assert (HVox : 0 < Vox).
  { unfold Vox, func_Vox. apply Qdiv_pos.
    - repeat apply Qmult_lt_0_compat; assumption.
    - apply Qmult_lt_0_compat; [apply Qmult_lt_0_compat; [exact HPc | exact HAf] | lra]. }
  clearbody Vox.
  assert (HVf : 0 < Vf).
  { unfold Vf, func_Vf. apply Qmult_lt_0_compat.
    - pose proof (Qdiv_pos c1 Vox Hc1 HVox) as Ht.
      set (t := c1 / Vox) in *. clearbody t. lra.
    - unfold Np.power. simpl Qpower. exact HPc. }
  clearbody Vf.
  split; [exact HVox |]. split; [exact HVf |].
  unfold o_f, func_of. apply Qdiv_pos; [exact HVox |].
  apply Qmult_lt_0_compat; [| exact HVf].
  apply Qmult_lt_0_compat; [| exact Ha0].
  apply Qmult_lt_0_compat; [exact Hrho | exact HAf].
Qed.

End PositivityFacts.

Section MoreRuns.
Import Instances.
Import CeaPost.
Import DesignEBHR.

Lemma linear_function_always_returns_a_number_witness :
  (exists v, func [1; 2; 3; 4] cstar_surface (SName "linear") 0.5 3.0e+6 = Ok (PyFloat v))
  /\ (exists v, func [1; 2; 3; 4] cstar_surface (SName "linear") 2.5 3.0e+6 = Ok (PyFloat v))
  /\ (exists v, func [1; 2; 3; 4] cstar_surface (SName "linear") 7 3.0e+6 = Ok (PyFloat v)).
Proof.
  repeat split;
    apply (linear_function_always_returns_a_number db_fs interp2d_poly db_reader "CSTAR"
             (func [1; 2; 3; 4] cstar_surface (SName "linear")) [1; 2; 3; 4]
             eq_refl eq_refl (le_S _ _ (le_n 3))).
Defined.

Lemma velocity_chain_is_positive_witness :
  0 < func_Vox 1.0e+6 0.01 259.8 280 0.038 0.5
  /\ 0 < func_Vf (func_Vox 1.0e+6 0.01 259.8 280 0.038 0.5) 1.0e+6 9.34e-8 2.46e-9 1
  /\ 0 < func_of (func_Vox 1.0e+6 0.01 259.8 280 0.038 0.5)
                 (func_Vf (func_Vox 1.0e+6 0.01 259.8 280 0.038 0.5)
                          1.0e+6 9.34e-8 2.46e-9 1)
                 1191 0.038 0.5.
Proof.
  apply (velocity_chain_is_positive 1.0e+6 0.01 259.8 280 0.038 0.5 9.34e-8 2.46e-9 1191);
    reflexivity.
Defined.
End MoreRuns.
